(** * Shopify product images: Dropbox share links to GitHub Pages

    A shallow embedding of the two migration scripts of the repository,
    [dropbox_to_github.py] and [simple_upload.py], and the properties
    proved about them.

    - Python [str] values are Rocq [string]s: sequences of 8-bit
      characters, read as the code points U+0000 to U+00FF.  Paths are
      POSIX paths ([os.path] is [posixpath]).
    - The library functions the scripts call ([urlparse], [quote],
      [hashlib.md5], [base64.b64encode], [os.path]) are written out.
    - The image host, the GitHub repository and the local CSV files make
      up the world; a script is a function from an environment and a world
      to a result and a world.  The world keeps a trace of what the script
      did; of what it prints, the trace keeps the usage message only.
    - The worker pool of [dropbox_to_github.py] is run in the order of
      submission.
    - Three decisions that libraries and services take outside the scripts
      are parameters: the check of a bracketed host in [urlsplit], the
      file that the content API takes a raw request path to name, and
      whether pandas reads a cell as a number. *)

From Stdlib Require Import ZArith Lia Bool Ascii.
From Stdlib Require String.
From stdpp Require Import gmap strings list fin_maps pretty.

#[local] Set Warnings "-clear-no-such-hyp".

Local Open Scope stdpp_scope.

(** ** Python [str] operations used by the scripts *)

Module Str.

(** [s.startswith(p)] *)
Fixpoint startswith (p s : string) : bool :=
  match p, s with
  | EmptyString, _ => true
  | String _ _, EmptyString => false
  | String a p', String b s' => if Ascii.eqb a b then startswith p' s' else false
  end.

(** [sub in s] *)
Fixpoint contains (sub s : string) : bool :=
  startswith sub s ||
  match s with
  | EmptyString => false
  | String _ s' => contains sub s'
  end.

(** [c in s] for a single character *)
Fixpoint has_char (c : ascii) (s : string) : bool :=
  match s with
  | EmptyString => false
  | String b s' => Ascii.eqb c b || has_char c s'
  end.

(** [s[n:]] *)
Fixpoint drop (n : nat) (s : string) : string :=
  match n, s with
  | O, _ => s
  | S _, EmptyString => EmptyString
  | S n', String _ s' => drop n' s'
  end.

(** [s[:n]] *)
Fixpoint take (n : nat) (s : string) : string :=
  match n, s with
  | O, _ => EmptyString
  | S _, EmptyString => EmptyString
  | S n', String c s' => String c (take n' s')
  end.

(** [s.replace(old, new)]: the occurrences of [old] are found from left to
    right and do not overlap.  [skip] counts the characters of a matched
    occurrence that are still to be passed over.  With an empty [old],
    [new] is put before every character and at the end, as Python does. *)
Fixpoint replace_from (old new : string) (skip : nat) (s : string) : string :=
  match s with
  | EmptyString =>
      match skip, old with
      | O, EmptyString => new
      | _, _ => EmptyString
      end
  | String c s' =>
      match skip with
      | S k => replace_from old new k s'
      | O =>
          if startswith old s then
            match old with
            | EmptyString => new +:+ String c (replace_from old new 0 s')
            | String _ old' => new +:+ replace_from old new (String.length old') s'
            end
          else String c (replace_from old new 0 s')
      end
  end.

Definition replace (old new s : string) : string := replace_from old new 0 s.

(** [s.find(c)] and [s.rfind(c)] for a single character; [-1] when absent. *)
Fixpoint find (c : ascii) (s : string) : Z :=
  match s with
  | EmptyString => -1
  | String b s' =>
      if Ascii.eqb c b then 0
      else let r := find c s' in if r <? 0 then -1 else r + 1
  end%Z.

Fixpoint rfind (c : ascii) (s : string) : Z :=
  match s with
  | EmptyString => -1
  | String b s' =>
      let r := rfind c s' in
      if 0 <=? r then r + 1 else if Ascii.eqb c b then 0 else -1
  end%Z.

(** [s.find(c, start)] for [0 <= start] *)
Definition find_from (c : ascii) (s : string) (start : Z) : Z :=
  let r := find c (drop (Z.to_nat start) s) in
  if (r <? 0)%Z then (-1)%Z
  else (Z.min start (Z.of_nat (String.length s)) + r)%Z.

(** Slice bounds as Python clips them: a negative index counts from the
    end, and every index is brought into [0 .. len s]. *)
Definition clip (s : string) (i : Z) : nat :=
  let n := Z.of_nat (String.length s) in
  Z.to_nat (if i <? 0 then Z.max 0 (i + n) else Z.min i n)%Z.

(** [s[i:]], [s[:j]] and [s[i:j]] *)
Definition slice_from (s : string) (i : Z) : string := drop (clip s i) s.
Definition slice_to (s : string) (j : Z) : string := take (clip s j) s.
Definition slice (s : string) (i j : Z) : string :=
  take (clip s j - clip s i) (drop (clip s i) s).

(** [s.split(sep)] for a single-character separator *)
Fixpoint split (sep : ascii) (s : string) : list string :=
  match s with
  | EmptyString => [EmptyString]
  | String c s' =>
      if Ascii.eqb c sep then EmptyString :: split sep s'
      else match split sep s' with
           | w :: ws => String c w :: ws
           | [] => [String c EmptyString]
           end
  end.

(** [s.split(sep, 1)] where [sep in s]: the text before the first
    separator and the text after it. *)
Definition split_once (sep : ascii) (s : string) : string * string :=
  let i := find sep s in (slice_to s i, slice_from s (i + 1)).

(** [s.lstrip(chars)], [chars] given as a predicate *)
Fixpoint lstrip (strip : ascii -> bool) (s : string) : string :=
  match s with
  | EmptyString => EmptyString
  | String c s' => if strip c then lstrip strip s' else s
  end.

(** [all(p(c) for c in s)] *)
Fixpoint all (p : ascii -> bool) (s : string) : bool :=
  match s with
  | EmptyString => true
  | String c s' => p c && all p s'
  end.

Definition code (c : ascii) : nat := nat_of_ascii c.
Definition between (lo hi : nat) (c : ascii) : bool :=
  (lo <=? code c) && (code c <=? hi).
Definition is_upper (c : ascii) : bool := between 65 90 c.
Definition is_lower (c : ascii) : bool := between 97 122 c.
Definition is_digit (c : ascii) : bool := between 48 57 c.
Definition is_ascii_alpha (c : ascii) : bool := is_upper c || is_lower c.

(** [s.lower()] on text whose letters are ASCII *)
Definition lower_char (c : ascii) : ascii :=
  if is_upper c then ascii_of_nat (code c + 32) else c.
Fixpoint lower (s : string) : string :=
  match s with
  | EmptyString => EmptyString
  | String c s' => String (lower_char c) (lower s')
  end.

(** [s.encode()]: UTF-8 of code points below 256 *)
Fixpoint encode (s : string) : list Z :=
  match s with
  | EmptyString => []
  | String c s' =>
      let n := Z.of_nat (code c) in
      (if n <? 128 then [n] else [192 + n / 64; 128 + n mod 64])%Z ++ encode s'
  end.

(** Text from bytes below 128 *)
Definition chr (b : Z) : ascii := ascii_of_nat (Z.to_nat b).

End Str.

(** ** Exceptions

    A computation returns a value or raises. *)

Inductive requests_error := ConnectionError | Timeout | TooManyRedirects.

Inductive exn :=
  | ValueError                            (* urllib.parse, csv, pandas *)
  | TypeError
  | AttributeError
  | FileNotFoundError
  | RequestException (e : requests_error) (* requests: no response *)
  | HTTPError (status : Z)                (* requests: raise_for_status *)
  | GithubException (status : Z)          (* PyGithub: the API refused *)
  | SystemExit (code : Z).                (* sys.exit *)

Inductive result (A : Type) :=
  | Ret (a : A)
  | Raise (e : exn).
Arguments Ret {A} a.
Arguments Raise {A} e.

Definition rbind {A B} (r : result A) (k : A -> result B) : result B :=
  match r with
  | Ret a => k a
  | Raise e => Raise e
  end.

(** ** URL normalizer, first half: [get_download_url]

    The function is the same, character for character, in both scripts. *)

Definition get_download_url (url : string) : string :=
  if Str.contains "dropbox.com" url && Str.contains "dl=0" url
  then Str.replace "dl=0" "dl=1" url
  else url.

(** ** [os.path] (POSIX) *)

Module posixpath.

(** [os.path.basename(p)] *)
Definition basename (p : string) : string :=
  let i := (Str.rfind "/" p + 1)%Z in
  Str.slice_from p i.

(** The loop of [genericpath._splitext] that skips leading dots:
    [true] as soon as a character other than the dot is met in
    [p[filenameIndex : filenameIndex + n]]. *)
Fixpoint has_stem (p : string) (filenameIndex n : nat) : bool :=
  match n with
  | O => false
  | S n' =>
      match String.get filenameIndex p with
      | Some c =>
          if Ascii.eqb c "." then has_stem p (S filenameIndex) n' else true
      | None => true
      end
  end.

(** [os.path.splitext(p)] *)
Definition splitext (p : string) : string * string :=
  let sepIndex := Str.rfind "/" p in
  let dotIndex := Str.rfind "." p in
  if (sepIndex <? dotIndex)%Z
     && has_stem p (Z.to_nat (sepIndex + 1)) (Z.to_nat (dotIndex - (sepIndex + 1)))
  then (Str.slice_to p dotIndex, Str.slice_from p dotIndex)
  else (p, EmptyString).

End posixpath.

(** ** [urllib.parse]

    [urlsplit] and [urlparse] as in CPython 3.12.  A netloc that carries
    both brackets is checked there against [ipaddress] and the IPvFuture
    pattern, by code that changed between releases: that one check is a
    parameter.  The NFKC check of [_checknetloc] only looks at characters
    outside ASCII whose normal form holds one of [/?#@:]; there is none
    below U+0100, so it never raises here. *)

Class HostCheck := bracketed_netloc_ok : string -> bool.

Module urllib.

Record ParseResult := {
  scheme : string;
  netloc : string;
  path : string;
  params : string;
  query : string;
  fragment : string
}.

(** [_WHATWG_C0_CONTROL_OR_SPACE] *)
Definition c0_control_or_space (c : ascii) : bool := Str.code c <=? 32.

(** [_UNSAFE_URL_BYTES_TO_REMOVE]: tab, carriage return, line feed *)
Definition unsafe_url_bytes_to_remove : list string :=
  [String (ascii_of_nat 9) EmptyString;
   String (ascii_of_nat 13) EmptyString;
   String (ascii_of_nat 10) EmptyString].

Definition scheme_chars (c : ascii) : bool :=
  Str.is_lower c || Str.is_upper c || Str.is_digit c
  || Ascii.eqb c "+" || Ascii.eqb c "-" || Ascii.eqb c ".".

Definition uses_params : list string :=
  [""; "ftp"; "hdl"; "prospero"; "http"; "imap"; "https"; "shttp"; "rtsp";
   "rtspu"; "sip"; "sips"; "mms"; "sftp"; "tel"].

(** [_splitnetloc(url, start)] *)
Definition splitnetloc (url : string) (start : Z) : string * string :=
  let delim :=
    fold_left
      (fun delim c =>
         let wdelim := Str.find_from c url start in
         if (0 <=? wdelim)%Z then Z.min delim wdelim else delim)
      ["/"; "?"; "#"]%char (Z.of_nat (String.length url)) in
  (Str.slice url start delim, Str.slice_from url delim).

(** [_splitparams(url)] *)
Definition splitparams (url : string) : string * string :=
  if Str.has_char "/" url then
    let i := Str.find_from ";" url (Str.rfind "/" url) in
    if (i <? 0)%Z then (url, EmptyString)
    else (Str.slice_to url i, Str.slice_from url (i + 1))
  else
    let i := Str.find ";" url in
    (Str.slice_to url i, Str.slice_from url (i + 1)).

Section Parse.
Context `{HostCheck}.

(** [urlsplit(url)], returned with empty [params] *)
Definition urlsplit (url : string) : result ParseResult :=
  let url := Str.lstrip c0_control_or_space url in
  let url := fold_left (fun u b => Str.replace b "" u) unsafe_url_bytes_to_remove url in
  let i := Str.find ":" url in
  let '(scheme, url) :=
    if (0 <? i)%Z
       && match String.get 0 url with
          | Some c => Str.is_ascii_alpha c
          | None => false
          end
       && Str.all scheme_chars (Str.slice_to url i)
    then (Str.lower (Str.slice_to url i), Str.slice_from url (i + 1))
    else (EmptyString, url) in
  rbind
    (if String.eqb (Str.slice_to url 2) "//" then
       let '(netloc, url) := splitnetloc url 2 in
       let open_br := Str.has_char "[" netloc in
       let close_br := Str.has_char "]" netloc in
       if (open_br && negb close_br) || (close_br && negb open_br)
       then Raise ValueError
       else if open_br && close_br && negb (bracketed_netloc_ok netloc)
       then Raise ValueError
       else Ret (netloc, url)
     else Ret (EmptyString, url))
    (fun '(netloc, url) =>
       let '(url, fragment) :=
         if Str.has_char "#" url then Str.split_once "#" url
         else (url, EmptyString) in
       let '(url, query) :=
         if Str.has_char "?" url then Str.split_once "?" url
         else (url, EmptyString) in
       Ret {| scheme := scheme; netloc := netloc; path := url;
              params := EmptyString; query := query; fragment := fragment |}).

(** [urlparse(url)] *)
Definition urlparse (url : string) : result ParseResult :=
  rbind (urlsplit url) (fun r =>
    let '(url, params) :=
      if bool_decide (scheme r ∈ uses_params) && Str.has_char ";" (path r)
      then splitparams (path r)
      else (path r, EmptyString) in
    Ret {| scheme := scheme r; netloc := netloc r; path := url;
           params := params; query := query r; fragment := fragment r |}).

End Parse.

(** Two hexadecimal digits of a byte, upper case: ['%02X'] *)
Definition hex_upper (n : Z) : ascii :=
  Str.chr (if n <? 10 then 48 + n else 55 + n)%Z.

Definition always_safe (c : ascii) : bool :=
  Str.is_upper c || Str.is_lower c || Str.is_digit c
  || Ascii.eqb c "_" || Ascii.eqb c "." || Ascii.eqb c "-" || Ascii.eqb c "~".

Definition quote_byte (b : Z) : string :=
  if (b <? 128)%Z && (always_safe (Str.chr b) || Ascii.eqb (Str.chr b) "/")
  then String (Str.chr b) EmptyString
  else String "%" (String (hex_upper (b / 16)) (String (hex_upper (b mod 16)) EmptyString)).

(** [quote(s)], with the default [safe='/'] *)
Definition quote (s : string) : string :=
  fold_right (fun b acc => quote_byte b +:+ acc) EmptyString (Str.encode s).

End urllib.

(** ** [hashlib.md5], after RFC 1321

    Words are 32-bit integers kept in [Z]; every sum is reduced modulo
    [2^32]. *)

Module hashlib.

Definition mask32 (x : Z) : Z := Z.land x 4294967295.
Definition not32 (x : Z) : Z := Z.lxor x 4294967295.
Definition rotl32 (x c : Z) : Z :=
  mask32 (Z.lor (Z.shiftl x c) (Z.shiftr x (32 - c))).

(** [floor(abs(sin(i + 1)) * 2^32)] *)
Definition K : list Z :=
  [3614090360; 3905402710; 606105819; 3250441966; 4118548399; 1200080426;
   2821735955; 4249261313; 1770035416; 2336552879; 4294925233; 2304563134;
   1804603682; 4254626195; 2792965006; 1236535329; 4129170786; 3225465664;
   643717713; 3921069994; 3593408605; 38016083; 3634488961; 3889429448;
   568446438; 3275163606; 4107603335; 1163531501; 2850285829; 4243563512;
   1735328473; 2368359562; 4294588738; 2272392833; 1839030562; 4259657740;
   2763975236; 1272893353; 4139469664; 3200236656; 681279174; 3936430074;
   3572445317; 76029189; 3654602809; 3873151461; 530742520; 3299628645;
   4096336452; 1126891415; 2878612391; 4237533241; 1700485571; 2399980690;
   4293915773; 2240044497; 1873313359; 4264355552; 2734768916; 1309151649;
   4149444226; 3174756917; 718787259; 3951481745]%Z.

(** Per-round shift amounts *)
Definition shifts : list Z :=
  [7; 12; 17; 22; 7; 12; 17; 22; 7; 12; 17; 22; 7; 12; 17; 22;
   5; 9; 14; 20; 5; 9; 14; 20; 5; 9; 14; 20; 5; 9; 14; 20;
   4; 11; 16; 23; 4; 11; 16; 23; 4; 11; 16; 23; 4; 11; 16; 23;
   6; 10; 15; 21; 6; 10; 15; 21; 6; 10; 15; 21; 6; 10; 15; 21]%Z.

Definition state : Type := Z * Z * Z * Z.

Definition init : state := (1732584193, 4023233417, 2562383102, 271733878)%Z.

(** The message with its padding: a [0x80] byte, zeros up to 56 modulo 64,
    and the length in bits as 64 bits, least significant byte first. *)
Definition le_bytes (n : nat) (x : Z) : list Z :=
  map (fun k => Z.land (Z.shiftr x (8 * Z.of_nat k)) 255) (seq 0 n).

Definition pad (msg : list Z) : list Z :=
  let len := Z.of_nat (length msg) in
  msg ++ [128%Z] ++ repeat 0%Z (Z.to_nat ((55 - len) mod 64))
      ++ le_bytes 8 ((8 * len) mod 2 ^ 64).

(** The sixteen little-endian words of a 64-byte block *)
Definition word_of (bs : list Z) : Z :=
  fold_right (fun b acc => b + 256 * acc)%Z 0%Z bs.

Definition words (block : list Z) : list Z :=
  map (fun j => word_of (take 4 (drop (4 * j) block))) (seq 0 16).

Definition round (M : list Z) (st : state) (i : nat) : state :=
  let '(A, B, C, D) := st in
  let '(F, g) :=
    if i <? 16 then (Z.lor (Z.land B C) (Z.land (not32 B) D), i)
    else if i <? 32 then (Z.lor (Z.land D B) (Z.land (not32 D) C), (5 * i + 1) mod 16)
    else if i <? 48 then (Z.lxor (Z.lxor B C) D, (3 * i + 5) mod 16)
    else (Z.lxor C (Z.lor B (not32 D)), (7 * i) mod 16) in
  let F := mask32 (F + A + nth i K 0 + nth g M 0)%Z in
  (D, mask32 (B + rotl32 F (nth i shifts 0))%Z, B, C).

Definition compress (st : state) (block : list Z) : state :=
  let '(a0, b0, c0, d0) := st in
  let '(A, B, C, D) := fold_left (round (words block)) (seq 0 64) st in
  (mask32 (a0 + A), mask32 (b0 + B), mask32 (c0 + C), mask32 (d0 + D))%Z.

Fixpoint blocks (n : nat) (bs : list Z) : list (list Z) :=
  match n with
  | O => []
  | S n' => take 64 bs :: blocks n' (drop 64 bs)
  end.

(** [hashlib.md5(msg).digest()] *)
Definition digest (msg : list Z) : list Z :=
  let padded := pad msg in
  let '(A, B, C, D) :=
    fold_left compress (blocks (length padded / 64) padded) init in
  le_bytes 4 A ++ le_bytes 4 B ++ le_bytes 4 C ++ le_bytes 4 D.

Definition hex_lower (n : Z) : ascii :=
  Str.chr (if n <? 10 then 48 + n else 87 + n)%Z.

(** [hashlib.md5(msg).hexdigest()] *)
Definition md5_hexdigest (msg : list Z) : string :=
  fold_right
    (fun b acc => String (hex_lower (b / 16)) (String (hex_lower (b mod 16)) acc))
    EmptyString (digest msg).

End hashlib.

(** ** [base64.b64encode] *)

Module base64.

Definition alphabet (n : Z) : ascii :=
  Str.chr (if n <? 26 then 65 + n
           else if n <? 52 then 71 + n
           else if n <? 62 then n - 4
           else if n =? 62 then 43 else 47)%Z.

Fixpoint b64encode (bs : list Z) : string :=
  match bs with
  | [] => EmptyString
  | [a] =>
      String (alphabet (a / 4))
        (String (alphabet (a mod 4 * 16)) "==")
  | [a; b] =>
      String (alphabet (a / 4))
        (String (alphabet (a mod 4 * 16 + b / 16))
           (String (alphabet (b mod 16 * 4)) "="))
  | a :: b :: c :: rest =>
      String (alphabet (a / 4))
        (String (alphabet (a mod 4 * 16 + b / 16))
           (String (alphabet (b mod 16 * 4 + c / 64))
              (String (alphabet (c mod 64)) (b64encode rest))))
  end%Z.

End base64.

(** ** URL normalizer, second half: [get_safe_filename]

    Also the same in both scripts. *)

Section SafeFilename.
Context `{HostCheck}.

Definition get_safe_filename (url : string) : result string :=
  rbind (urllib.urlparse url) (fun parsed_url =>
    let path := urllib.path parsed_url in
    let filename := hd EmptyString (Str.split "?" (posixpath.basename path)) in
    if (100 <? String.length filename)
       || Str.has_char "?" filename || Str.has_char "&" filename
    then
      let hash_object := Str.encode url in
      let file_ext :=
        match snd (posixpath.splitext filename) with
        | EmptyString => ".jpg"
        | ext => ext
        end in
      Ret (hashlib.md5_hexdigest hash_object +:+ file_ext)
    else Ret filename).

End SafeFilename.

(** ** The world the scripts run in

    Three collaborators are outside the repository: the image host reached
    with [requests.get], the GitHub repository reached through its content
    API, and the local files.  The host and the API's refusals are an
    environment the properties quantify over; the repository's contents and
    the files are state. *)

Definition bytes : Type := list Z.

(** [requests.get(url, stream=..., timeout=...)] *)
Record Request := {
  req_url : string;
  req_stream : bool;
  req_timeout : Z
}.

Inductive http_outcome :=
  | Responded (status : Z) (content : bytes)
  | Failed (e : requests_error).

Inductive api_target :=
  | RepoInfo
  | Branch (name : string)
  | Contents (path : string).

Record Env := {
  (** what the image host answers *)
  http_get : Request -> http_outcome;
  (** whether the content API turns a request down whatever the state of
      the repository: credentials, rate limit, a path it does not accept *)
  api_refuses : api_target -> bool
}.

(** The remote repository: files per branch and path, each with its
    revision token (a counter stands for the blob sha). *)
Module github.

Record Blob := { content : string; sha : nat }.

Record Repo := {
  owner_login : string;
  name : string;
  default_branch : string;
  branches : gset string;
  files : gmap (string * string) Blob
}.

Definition with_files (r : Repo) (fs : gmap (string * string) Blob) : Repo :=
  {| owner_login := owner_login r; name := name r;
     default_branch := default_branch r; branches := branches r; files := fs |}.

(** The paths of the files below directory [dir] on [branch] *)
Definition listing (r : Repo) (branch dir : string) : list string :=
  omap (fun '((b, p), _) =>
          if bool_decide (b = branch) && Str.startswith (dir +:+ "/") p
          then Some p else None)
       (map_to_list (files r)).

(** [PUT /repos/{repo}/contents/{path}]: the status and the repository
    afterwards.  A file that exists is replaced when the request carries
    its current token; a file that does not exist is created when the
    request carries none and the path is not a directory. *)
Definition put (r : Repo) (branch path content : string) (token : option nat)
  : Z * Repo :=
  if bool_decide (branch ∈ branches r)
     && bool_decide (listing r branch path = []) then
    match files r !! (branch, path), token with
    | Some b, Some t =>
        if bool_decide (t = sha b)
        then (200%Z, with_files r (<[(branch, path) := {| content := content; sha := S (sha b) |}]> (files r)))
        else (409%Z, r)
    | Some _, None => (422%Z, r)
    | None, None =>
        (201%Z, with_files r (<[(branch, path) := {| content := content; sha := 0 |}]> (files r)))
    | None, Some _ => (404%Z, r)
    end
  else if bool_decide (branch ∈ branches r) then (422%Z, r)
  else (404%Z, r).

(** What [GET /repos/{repo}/contents/{path}] describes: a file, or the
    entries of a directory *)
Inductive contents :=
  | File (b : Blob)
  | Dir (entries : list string).

Definition get (r : Repo) (branch path : string) : option contents :=
  match files r !! (branch, path) with
  | Some b => Some (File b)
  | None =>
      match listing r branch path with
      | [] => None
      | entries => Some (Dir entries)
      end
  end.

(** A new branch starts with the files of the branch it is cut from. *)
Definition create_branch (r : Repo) (new from : string) : Repo :=
  {| owner_login := owner_login r; name := name r;
     default_branch := default_branch r;
     branches := {[new]} ∪ branches r;
     files :=
       list_to_map
         (omap (fun '((b, p), blob) =>
                  if bool_decide (b = from) then Some ((new, p), blob) else None)
               (map_to_list (files r)))
       ∪ files r |}.

End github.

(** A CSV file as the [csv] module reads it: the header line, absent in an
    empty file, and the cells of each further line. *)
Record CsvFile := {
  csv_header : option (list string);
  csv_rows : list (list string)
}.

Inductive event :=
  | Upload (url : string)   (* [upload_to_github] is entered *)
  | HttpGet (r : Request)
  | Created (branch path message : string)
  | Updated (branch path message : string)
  | BranchCreated (name : string)
  | Slept (seconds : Z)
  | MadeDir (path : string)
  | Printed (line : string).

Record World := {
  repo : github.Repo;
  fs : gmap string CsvFile;
  trace : list event
}.

Definition set_repo (w : World) (r : github.Repo) : World :=
  {| repo := r; fs := fs w; trace := trace w |}.
Definition set_fs (w : World) (f : gmap string CsvFile) : World :=
  {| repo := repo w; fs := f; trace := trace w |}.
Definition log (w : World) (e : event) : World :=
  {| repo := repo w; fs := fs w; trace := trace w ++ [e] |}.

(** ** Exceptions, continued, and the monad of the scripts *)

Definition M (A : Type) : Type := Env -> World -> result A * World.

Definition ret {A} (a : A) : M A := fun _ w => (Ret a, w).
Definition raise {A} (e : exn) : M A := fun _ w => (Raise e, w).
Definition bind {A B} (m : M A) (k : A -> M B) : M B :=
  fun env w =>
    match m env w with
    | (Ret a, w') => k a env w'
    | (Raise e, w') => (Raise e, w')
    end.
Definition lift {A} (r : result A) : M A := fun _ w => (r, w).
Definition emit (e : event) : M unit := fun _ w => (Ret tt, log w e).

Notation "x <- m ;; k" := (bind m (fun x => k))
  (at level 100, m at next level, right associativity).
Notation "m ;;; k" := (bind m (fun _ => k))
  (at level 100, right associativity).

(** [except Exception] lets [SystemExit] through. *)
Definition is_exception (e : exn) : bool :=
  match e with
  | SystemExit _ => false
  | _ => true
  end.

(** [try: body  except Exception as e: handler(e)] *)
Definition try_except {A} (body : M A) (handler : exn -> M A) : M A :=
  fun env w =>
    match body env w with
    | (Raise e, w') =>
        if is_exception e then handler e env w' else (Raise e, w')
    | r => r
    end.

(** ** Primitives of the collaborators *)

(** [requests.get(...)] on the image host: the response's status and
    content, or the exception [requests] raises. *)
Definition requests_get (r : Request) : M (Z * bytes) :=
  fun env w =>
    match http_get env r with
    | Responded status content => (Ret (status, content), log w (HttpGet r))
    | Failed e => (Raise (RequestException e), log w (HttpGet r))
    end.

(** [response.raise_for_status()] *)
Definition raise_for_status (status : Z) : M unit :=
  if ((400 <=? status) && (status <? 600))%Z
  then raise (HTTPError status)
  else ret tt.

(** [GET /repos/{repo}/contents/{path}], on [ref] or on the default branch *)
Definition contents_get (path : string) (ref : option string)
  : M (Z * option github.contents) :=
  fun env w =>
    if api_refuses env (Contents path) then (Ret (403%Z, None), w)
    else
      let branch := default (github.default_branch (repo w)) ref in
      match github.get (repo w) branch path with
      | Some c => (Ret (200%Z, Some c), w)
      | None => (Ret (404%Z, None), w)
      end.

(** [PUT /repos/{repo}/contents/{path}] *)
Definition contents_put (path message content branch : string)
    (sha : option nat) : M Z :=
  fun env w =>
    if api_refuses env (Contents path) then (Ret 403%Z, w)
    else
      let '(status, r) := github.put (repo w) branch path content sha in
      let w := set_repo w r in
      (Ret status,
       if (status =? 201)%Z then log w (Created branch path message)
       else if (status =? 200)%Z then log w (Updated branch path message)
       else w).

(** [time.sleep(seconds)] *)
Definition sleep (seconds : Z) : M unit := emit (Slept seconds).

(** [open(name)] for reading a CSV file *)
Definition open_csv (name : string) : M CsvFile :=
  fun _ w =>
    match fs w !! name with
    | Some f => (Ret f, w)
    | None => (Raise FileNotFoundError, w)
    end.

(** [open(name, 'w')]: the file is created, or emptied. *)
Definition open_w (name : string) : M unit :=
  fun _ w =>
    (Ret tt, set_fs w (<[name := {| csv_header := None; csv_rows := [] |}]> (fs w))).

(** Writing a CSV file: the header first, then one line at a time. *)
Definition write_header (name : string) (header : list string) : M unit :=
  fun _ w =>
    (Ret tt, set_fs w (<[name := {| csv_header := Some header; csv_rows := [] |}]> (fs w))).

Definition write_line (name : string) (cells : list string) : M unit :=
  fun _ w =>
    (Ret tt,
     set_fs w
       (alter (fun f => {| csv_header := csv_header f;
                           csv_rows := csv_rows f ++ [cells] |}) name (fs w))).

(** A [for] loop that threads the variables it updates. *)
Fixpoint foldM {A S} (body : S -> A -> M S) (l : list A) (s : S) : M S :=
  match l with
  | [] => ret s
  | x :: l' => s' <- body s x ;; foldM body l' s'
  end.

(** [enumerate(range(0, n, step))]: the pairs [(batch_index, i)] *)
Definition enumerate_range (n step : nat) : list (nat * nat) :=
  map (fun k => (k, k * step)) (seq 0 ((n + step - 1) / step)).

(** [l[i : i + size]] *)
Definition sublist {A} (l : list A) (i size : nat) : list A :=
  take size (drop i l).

(** [os.path.splitext(csv_file)[0] + '_with_github_urls.csv'] *)
Definition output_name (csv_file : string) : string :=
  fst (posixpath.splitext csv_file) +:+ "_with_github_urls.csv".


(** [if not image_data]: [None] and the empty payload are both falsy. *)
Definition falsy (image_data : option bytes) : bool :=
  match image_data with
  | None | Some [] => true
  | Some (_ :: _) => false
  end.

(** The content API names a file by the path of the request URL with its
    percent-escapes decoded: a request on [.../contents/images/a%20b.jpg]
    is a request on the file [images/a b.jpg].  [simple_upload.py] puts the
    raw path in the URL; [requests] escapes what may not stand in a URL
    and sends the escapes that are there as they are.  Which file a raw
    path ends up naming is decided by the library and the API, not by the
    script: it is a parameter.  PyGithub, which [dropbox_to_github.py]
    calls, escapes the path itself, so that there the file named is the
    path given. *)
Class RequestPath := request_path : string -> string.

(** ** Blob fetcher: [download_image], the same in both scripts *)

Definition download_image (url : string) : M (option bytes) :=
  try_except
    (let download_url := get_download_url url in
     response <- requests_get {| req_url := download_url;
                                 req_stream := true;
                                 req_timeout := 30 |} ;;
     raise_for_status (fst response) ;;;
     ret (Some (snd response)))
    (fun e => ret None).

(** ** [simple_upload.py] *)

Module Simple.

Definition GITHUB_REPO : string := "alex-halloran/shopify-product-images".
Definition GITHUB_USER : string := nth 0 (Str.split "/" GITHUB_REPO) EmptyString.
Definition GITHUB_REPO_NAME : string := nth 1 (Str.split "/" GITHUB_REPO) EmptyString.
Definition BATCH_SIZE : nat := 10.

Section Script.
Context `{HostCheck} `{RequestPath}.

Definition upload_to_github (url : string) : M (string * option string) :=
  emit (Upload url) ;;;
  try_except
    (filename <- lift (get_safe_filename url) ;;
     let path := "images/" +:+ filename in
     image_data <- download_image url ;;
     if falsy image_data then ret (url, None) else
     (* [api_url] ends in the raw [path]; the file it names *)
     let api_file := request_path path in
     response <- contents_get api_file None ;;
     let content_b64 := base64.b64encode (default [] image_data) in
     let message := "Add image " +:+ filename in
     sha <-
       (if (fst response =? 200)%Z then
          match snd response with
          | Some (github.File file_info) => ret (Some (github.sha file_info))
          | _ => raise TypeError
          end
        else ret None) ;;
     status <- contents_put api_file message content_b64 "main" sha ;;
     if bool_decide (status ∈ [200; 201]%Z) then
       let github_pages_url :=
         "https://" +:+ GITHUB_USER +:+ ".github.io/" +:+ GITHUB_REPO_NAME
         +:+ "/images/" +:+ filename in
       ret (url, Some github_pages_url)
     else ret (url, None))
    (fun e => ret (url, None)).

(** A row as [csv.DictReader] yields it: the cells by field name, [None]
    where the line is shorter than the header, and whether the line is
    longer than the header (the surplus sits under the key [None]). *)
Record Row := {
  cells : gmap string (option string);
  surplus : bool
}.

Definition dict_zip (keys : list string) (values : list string)
  : gmap string (option string) :=
  fold_left (fun d kv => <[kv.1 := Some kv.2]> d) (zip keys values) ∅.

Definition read_row (fieldnames : list string) (line : list string) : Row :=
  {| cells :=
       fold_left (fun d key => <[key := None]> d)
         (drop (length line) fieldnames) (dict_zip fieldnames line);
     surplus := length fieldnames <? length line |}.

(** The rows of [csv.DictReader(file)]; blank lines are skipped. *)
Definition DictReader (f : CsvFile) : list Row :=
  match csv_header f with
  | None => []
  | Some fieldnames =>
      map (read_row fieldnames) (filter (fun line => line ≠ []) (csv_rows f))
  end.

(** [writer.writerow(row)]: a key outside the field names is an error. *)
Definition writerow (name : string) (fieldnames : list string) (row : Row)
  : M unit :=
  if surplus row
     || negb (bool_decide (dom (cells row) ⊆ list_to_set fieldnames))
  then raise ValueError
  else write_line name
         (map (fun key => default EmptyString (mjoin (cells row !! key))) fieldnames).

(** [key in row and row[key] and 'dropbox.com' in row[key]] *)
Definition dropbox_cell (row : Row) (key : string) : option string :=
  match cells row !! key with
  | Some (Some value) =>
      if negb (String.eqb value "") && Str.contains "dropbox.com" value
      then Some value else None
  | _ => None
  end.

(** The body of the loop over the rows that fills [dropbox_urls] *)
Definition collect_row (dropbox_urls : gset string) (row : Row) : gset string :=
  let dropbox_urls :=
    match dropbox_cell row "Image Src" with
    | Some url => dropbox_urls ∪ {[url]}
    | None => dropbox_urls
    end in
  match dropbox_cell row "Variant Image" with
  | Some url => dropbox_urls ∪ {[url]}
  | None => dropbox_urls
  end.

Definition collect (rows : list Row) : gset string :=
  fold_left collect_row rows ∅.

(** [row[new] = url_mappings[row[key]]] when the cell is a key of the
    mapping, [''] otherwise *)
Definition rewrite_cell (url_mappings : gmap string string) (row : Row)
    (key new : string) : Row :=
  let value :=
    match cells row !! key with
    | Some (Some cell) =>
        match url_mappings !! cell with
        | Some github_url => github_url
        | None => EmptyString
        end
    | _ => EmptyString
    end in
  {| cells := <[new := Some value]> (cells row); surplus := surplus row |}.

Definition rewrite_row (url_mappings : gmap string string) (row : Row) : Row :=
  rewrite_cell url_mappings
    (rewrite_cell url_mappings row "Image Src" "GitHub_Image_Src")
    "Variant Image" "GitHub_Variant_Image".

(** The body of the batch loop *)
Definition process_batch (dropbox_urls : list string)
    (url_mappings : gmap string string) (bi : nat * nat)
  : M (gmap string string) :=
  let '(batch_index, i) := bi in
  let batch := sublist dropbox_urls i BATCH_SIZE in
  url_mappings <-
    foldM (fun url_mappings url =>
             r <- upload_to_github url ;;
             let '(original_url, github_url) := r in
             match github_url with
             | Some (String c g) => ret (<[original_url := String c g]> url_mappings)
             | _ => ret url_mappings
             end)
          batch url_mappings ;;
  (if batch_index <? (length dropbox_urls + BATCH_SIZE - 1) / BATCH_SIZE - 1
   then sleep 10 else ret tt) ;;;
  ret url_mappings.

Definition process_csv (csv_file : string) : M unit :=
  file <- open_csv csv_file ;;
  let dropbox_urls := elements (collect (DictReader file)) in
  emit (MadeDir "images") ;;;
  url_mappings <-
    foldM (process_batch dropbox_urls)
          (enumerate_range (length dropbox_urls) BATCH_SIZE) ∅ ;;
  let output_csv := output_name csv_file in
  let mappings_csv := "dropbox_to_github_mappings.csv" in
  infile <- open_csv csv_file ;;
  open_w output_csv ;;;
  fieldnames <-
    match csv_header infile with
    | Some fieldnames => ret (fieldnames ++ ["GitHub_Image_Src"; "GitHub_Variant_Image"])
    | None => raise TypeError
    end ;;
  write_header output_csv fieldnames ;;;
  foldM (fun _ row => writerow output_csv fieldnames (rewrite_row url_mappings row))
        (DictReader infile) tt ;;;
  open_w mappings_csv ;;;
  write_header mappings_csv ["Dropbox_URL"; "GitHub_URL"] ;;;
  foldM (fun _ kv => write_line mappings_csv [kv.1; kv.2])
        (map_to_list url_mappings) tt.

(** The [__main__] block; [argv] is [sys.argv]. *)
Definition main (argv : list string) : M unit :=
  if negb (length argv =? 2) then
    emit (Printed "Usage: python simple_upload.py your_shopify_import.csv") ;;;
    raise (SystemExit 1)
  else
    let csv_file := nth 1 argv EmptyString in
    process_csv csv_file.

End Script.
End Simple.

(** ** [dropbox_to_github.py] *)

(** Whether [read_csv] reads a cell as a number is decided by the number
    parser of pandas.  The script depends on it only through the type
    that a column gets; it is a parameter. *)
Class NumberCheck := parses_as_number : string -> bool.

Module Dropbox.

Definition BATCH_SIZE : nat := 50.
Definition MAX_WORKERS : nat := 5.

(** PyGithub's [repo.get_contents(path, ref=ref)] *)
Definition get_contents (path ref : string) : M github.contents :=
  response <- contents_get path (Some ref) ;;
  match snd response with
  | Some c => ret c
  | None => raise (GithubException (fst response))
  end.

(** [file.sha] and [file.content]; a directory listing has neither. *)
Definition blob_of (c : github.contents) : M github.Blob :=
  match c with
  | github.File b => ret b
  | github.Dir _ => raise AttributeError
  end.

(** [for content in contents]; a single file cannot be iterated. *)
Definition entries_of (c : github.contents) : M (list string) :=
  match c with
  | github.Dir entries => ret entries
  | github.File _ => raise TypeError
  end.

(** [repo.update_file(path, message, content, sha, branch=branch)] *)
Definition update_file (path message content : string) (sha : nat)
    (branch : string) : M unit :=
  status <- contents_put path message content branch (Some sha) ;;
  if (status =? 200)%Z then ret tt else raise (GithubException status).

(** [repo.create_file(path, message, content, branch=branch)] *)
Definition create_file (path message content branch : string) : M unit :=
  status <- contents_put path message content branch None ;;
  if (status =? 201)%Z then ret tt else raise (GithubException status).

(** The module-level [repo] and [default_branch] *)
Definition the_repo : M github.Repo := fun _ w => (Ret (repo w), w).
Definition default_branch : M string :=
  fun _ w => (Ret (github.default_branch (repo w)), w).

Section Script.
Context `{HostCheck} `{NumberCheck}.

Definition upload_to_github (url : string) (batch_index : nat)
  : M (string * option string) :=
  emit (Upload url) ;;;
  try_except
    (filename <- lift (get_safe_filename url) ;;
     let path := "images/" +:+ filename in
     image_data <- download_image url ;;
     if falsy image_data then ret (url, None) else
     let content := base64.b64encode (default [] image_data) in
     let commit_message :=
       "Add image " +:+ filename +:+ " [batch " +:+ pretty batch_index +:+ "]" in
     branch <- default_branch ;;
     try_except
       (file <- get_contents path branch ;;
        file <- blob_of file ;;
        update_file path commit_message content (github.sha file) branch)
       (fun _ => create_file path commit_message content branch) ;;;
     repo <- the_repo ;;
     let github_pages_url :=
       "https://" +:+ github.owner_login repo +:+ ".github.io/"
       +:+ github.name repo +:+ "/images/" +:+ urllib.quote filename in
     ret (url, Some github_pages_url))
    (fun e => ret (url, None)).

(** *** The table, as pandas holds it

    A cell is its text, or [NaN], here [None], when the text is one of the
    spellings of a missing value.  A column of numbers or of truth values
    is known as such ([is_text_column] below), but its cells are kept as
    the text they were read from: how pandas prints a number back is left
    out. *)
Record DataFrame := {
  columns : list string;
  rows : list (gmap string (option string))
}.

(** A repeated column name [x] is read as [x.1], [x.2], ... *)
Fixpoint mangle_dupes (seen names : list string) : list string :=
  match names with
  | [] => []
  | name :: names' =>
      let k := length (filter (fun s => s = name) seen) in
      (if k =? 0 then name else name +:+ "." +:+ pretty k)
      :: mangle_dupes (name :: seen) names'
  end.

(** The spellings that [read_csv] takes for a missing value (pandas 2) *)
Definition na_values : list string :=
  [""; "#N/A"; "#N/A N/A"; "#NA"; "-1.#IND"; "-1.#QNAN"; "-NaN"; "-nan";
   "1.#IND"; "1.#QNAN"; "<NA>"; "N/A"; "NA"; "NULL"; "NaN"; "None"; "n/a";
   "nan"; "null"].

Definition is_na (cell : string) : bool := bool_decide (cell ∈ na_values).

(** The spellings it takes for a truth value *)
Definition bool_values : list string :=
  ["True"; "TRUE"; "true"; "False"; "FALSE"; "false"].

Definition read_line (columns : list string) (line : list string)
  : gmap string (option string) :=
  list_to_map
    (zip columns
         (map (fun cell => if is_na cell then None else Some cell) line
          ++ repeat None (length columns - length line))).

(** [pd.read_csv(csv_file)]: an empty file is an error; blank lines are
    skipped.  The first line of data sets the width of the table when it
    is longer than the header: the cells it has too many, at its front,
    are the labels of the row and belong to no column.  A later line
    longer than the width is an error; a shorter line is filled up with
    [NaN]. *)
Definition read_csv (csv_file : string) : M DataFrame :=
  file <- open_csv csv_file ;;
  match csv_header file with
  | None => raise ValueError
  | Some header =>
      let lines := filter (fun line => line ≠ []) (csv_rows file) in
      let width := length header `max` length (default [] (head lines)) in
      if existsb (fun line => width <? length line) lines
      then raise ValueError
      else
        let columns := mangle_dupes [] header in
        let labels := width - length header in
        ret {| columns := columns;
               rows := map (fun line => read_line columns (drop labels line)) lines |}
  end.

(** [df.to_csv(name, index=False)] *)
Definition to_csv (df : DataFrame) (name : string) : M unit :=
  open_w name ;;;
  write_header name (columns df) ;;;
  foldM (fun _ row =>
           write_line name
             (map (fun c => default EmptyString (mjoin (row !! c))) (columns df)))
        (rows df) tt.

(** [re.search('dropbox.com', s)]: the dot stands for any character but
    the line feed. *)
Fixpoint re_search_dropbox_com (s : string) : bool :=
  (Str.startswith "dropbox" s
   && match Str.drop 7 s with
      | String c rest =>
          negb (Ascii.eqb c (ascii_of_nat 10)) && Str.startswith "com" rest
      | EmptyString => false
      end)
  || match s with
     | EmptyString => false
     | String _ s' => re_search_dropbox_com s'
     end.

(** [Series.unique()]: first occurrences, in order *)
Fixpoint unique (seen l : list string) : list string :=
  match l with
  | [] => []
  | x :: l' =>
      if bool_decide (x ∈ seen) then unique seen l'
      else x :: unique (x :: seen) l'
  end.

(** The type [read_csv] gives a column: a column in which every cell that
    is there is a number, or every one a truth value, is read as numbers
    or truth values, and so is a column in which no cell is there at all
    (it holds [NaN] only); any other column is a column of text.  The
    columns of a table without rows are columns of text. *)
Definition is_text_column (df : DataFrame) (col : string) : bool :=
  let present := omap (fun row => mjoin (row !! col)) (rows df) in
  match rows df with
  | [] => true
  | _ =>
      negb (forallb parses_as_number present)
      && negb (forallb (fun cell => bool_decide (cell ∈ bool_values)) present)
  end.

(** [df.loc[df[col].str.contains('dropbox.com', na=False), col].unique()];
    a column that is not of text has no [.str]. *)
Definition dropbox_values (df : DataFrame) (col : string) : result (list string) :=
  if is_text_column df col then
    Ret (unique []
           (omap (fun row =>
                    match row !! col with
                    | Some (Some value) =>
                        if re_search_dropbox_com value then Some value else None
                    | _ => None
                    end)
                 (rows df)))
  else Raise AttributeError.

Definition collect (df : DataFrame) : result (list string) :=
  let dropbox_urls := [] in
  rbind (if bool_decide ("Image Src" ∈ columns df)
         then rbind (dropbox_values df "Image Src")
                    (fun values => Ret (dropbox_urls ++ values))
         else Ret dropbox_urls)
    (fun dropbox_urls =>
  rbind (if bool_decide ("Variant Image" ∈ columns df)
         then rbind (dropbox_values df "Variant Image")
                    (fun values => Ret (dropbox_urls ++ values))
         else Ret dropbox_urls)
    (fun dropbox_urls =>
  Ret (elements (list_to_set (C := gset string) dropbox_urls)))).

(** [df[new] = df[col].map(lambda x: url_mappings.get(x, x))] *)
Definition map_column (url_mappings : gmap string string) (df : DataFrame)
    (col new : string) : DataFrame :=
  {| columns :=
       if bool_decide (new ∈ columns df) then columns df else columns df ++ [new];
     rows :=
       map (fun row =>
              <[new := match mjoin (row !! col) with
                       | Some x => Some (default x (url_mappings !! x))
                       | None => None
                       end]> row)
           (rows df) |}.

Definition rewrite (url_mappings : gmap string string) (df : DataFrame)
  : DataFrame :=
  let df :=
    if bool_decide ("Image Src" ∈ columns df)
    then map_column url_mappings df "Image Src" "GitHub_Image_Src" else df in
  if bool_decide ("Variant Image" ∈ columns df)
  then map_column url_mappings df "Variant Image" "GitHub_Variant_Image" else df.

(** The body of the batch loop.  The pool's workers are run one after the
    other, in the order of submission: an upload is taken as one step, and
    the order in which the futures complete is not modelled. *)
Definition process_batch (dropbox_urls : list string)
    (url_mappings : gmap string string) (bi : nat * nat)
  : M (gmap string string) :=
  let '(batch_index, i) := bi in
  let batch := sublist dropbox_urls i BATCH_SIZE in
  url_mappings <-
    foldM (fun url_mappings url =>
             try_except
               (r <- upload_to_github url batch_index ;;
                let '(original_url, github_url) := r in
                match github_url with
                | Some (String c g) => ret (<[original_url := String c g]> url_mappings)
                | _ => ret url_mappings
                end)
               (fun e => ret url_mappings))
          batch url_mappings ;;
  (if batch_index <? (length dropbox_urls + BATCH_SIZE - 1) / BATCH_SIZE - 1
   then sleep 10 else ret tt) ;;;
  ret url_mappings.

(** [repo.get_branch(name)] *)
Definition get_branch (name : string) : M unit :=
  fun env w =>
    if api_refuses env (Branch name) then (Raise (GithubException 403), w)
    else if bool_decide (name ∈ github.branches (repo w)) then (Ret tt, w)
    else (Raise (GithubException 404), w).

(** [repo.create_git_ref(ref='refs/heads/' + name, sha=...)], the sha being
    the head of branch [from] *)
Definition create_git_ref (name from : string) : M unit :=
  fun env w =>
    if api_refuses env (Branch name) then (Raise (GithubException 403), w)
    else if bool_decide (name ∈ github.branches (repo w))
    then (Raise (GithubException 422), w)
    else (Ret tt,
          log (set_repo w (github.create_branch (repo w) name from))
              (BranchCreated name)).

(** [g.get_repo(GITHUB_REPO)] *)
Definition get_repo : M unit :=
  fun env w =>
    if api_refuses env RepoInfo then (Raise (GithubException 401), w)
    else (Ret tt, w).

(** The statements the module runs when it is loaded (lines 30 to 57) *)
Definition module_init : M unit :=
  get_repo ;;;
  branch <- default_branch ;;
  try_except
    (get_contents "images" branch ;;; ret tt)
    (fun _ => create_file "images/.gitkeep" "Create images directory" "" branch) ;;;
  try_except
    (get_branch "gh-pages")
    (fun _ => get_branch branch ;;; create_git_ref "gh-pages" branch).

Definition index_content : string :=
"<!DOCTYPE html>
<html>
<head>
    <title>GitHub Pages Image Hosting</title>
    <style>
        body { font-family: Arial, sans-serif; margin: 20px; }
        h1 { color: #333; }
    </style>
</head>
<body>
    <h1>GitHub Pages Image Hosting</h1>
    <p>This repository hosts images for Shopify import.</p>
</body>
</html>".

(** Publishing to the [gh-pages] branch (lines 195 to 249) *)
Definition publish_pages : M unit :=
  try_except
    (try_except
       (file <- get_contents "index.html" "gh-pages" ;;
        file <- blob_of file ;;
        update_file "index.html" "Update index.html" index_content
          (github.sha file) "gh-pages")
       (fun _ => create_file "index.html" "Create index.html" index_content "gh-pages") ;;;
     branch <- default_branch ;;
     contents <- get_contents "images" branch ;;
     contents <- entries_of contents ;;
     foldM (fun _ content_path =>
              if String.eqb content_path "images/.gitkeep" then ret tt
              else
                try_except
                  (file_content <- get_contents content_path branch ;;
                   file_content <- blob_of file_content ;;
                   try_except
                     (dest_file <- get_contents content_path "gh-pages" ;;
                      dest_file <- blob_of dest_file ;;
                      update_file content_path ("Update " +:+ content_path)
                        (github.content file_content) (github.sha dest_file)
                        "gh-pages")
                     (fun _ =>
                        create_file content_path ("Add " +:+ content_path)
                          (github.content file_content) "gh-pages"))
                  (fun e => ret tt))
           contents tt)
    (fun e => ret tt).

Definition process_csv (csv_file : string) : M unit :=
  df <- read_csv csv_file ;;
  dropbox_urls <- lift (collect df) ;;
  url_mappings <-
    foldM (process_batch dropbox_urls)
          (enumerate_range (length dropbox_urls) BATCH_SIZE) ∅ ;;
  let df := rewrite url_mappings df in
  let output_csv := output_name csv_file in
  to_csv df output_csv ;;;
  let mappings_df :=
    {| columns := ["Dropbox_URL"; "GitHub_URL"];
       rows := map (fun kv => {["Dropbox_URL" := Some kv.1; "GitHub_URL" := Some kv.2]})
                   (map_to_list url_mappings) |} in
  let mappings_csv := "dropbox_to_github_mappings.csv" in
  to_csv mappings_df mappings_csv ;;;
  publish_pages.

(** The [__main__] block *)
Definition main (argv : list string) : M unit :=
  if negb (length argv =? 2) then
    emit (Printed "Usage: python dropbox_to_github.py your_shopify_import.csv") ;;;
    raise (SystemExit 1)
  else
    let csv_file := nth 1 argv EmptyString in
    process_csv csv_file.


End Script.
End Dropbox.

(** ** Vocabulary of the properties *)

(** Position [i] of [url] is the last character of an occurrence of the
    preview marker [dl=0]. *)
Definition marker_end (url : string) (i : nat) : bool :=
  (3 <=? i) && Str.startswith "dl=0" (Str.drop (i - 3) url).

(** The candidate file name that [get_safe_filename] takes from the path
    of the parsed URL. *)
Definition candidate (path : string) : string :=
  hd EmptyString (Str.split "?" (posixpath.basename path)).

(** The extension [get_safe_filename] gives a hashed name. *)
Definition extension (filename : string) : string :=
  match snd (posixpath.splitext filename) with
  | EmptyString => ".jpg"
  | ext => ext
  end.

Definition is_lower_hex (c : ascii) : bool :=
  Str.is_digit c || Str.between 97 102 c.

(** The result is a value, or an exception that [except Exception]
    catches. *)
Definition is_exception_result {A} (r : result A) : bool :=
  match r with
  | Ret _ => true
  | Raise e => is_exception e
  end.

(** The URLs on which [upload_to_github] was entered, in order *)
Definition uploads (t : list event) : list string :=
  omap (fun e => match e with Upload url => Some url | _ => None end) t.

(** The requests sent to the image host, in order *)
Definition fetches (t : list event) : list Request :=
  omap (fun e => match e with HttpGet r => Some r | _ => None end) t.

(** The public URL of an asset *)
Definition pages_url (owner repo_name escaped_name : string) : string :=
  "https://" +:+ owner +:+ ".github.io/" +:+ repo_name +:+ "/images/"
  +:+ escaped_name.

(** A check of bracketed hosts to run the scripts with: it accepts none. *)
Definition no_bracketed_host : HostCheck := fun _ => false.

(** A content API to run the scripts with: it decodes the escapes of the
    characters below U+0080 and leaves the rest of a path as it is. *)
Definition hex_value (c : ascii) : option Z :=
  if Str.is_digit c then Some (Z.of_nat (Str.code c) - 48)%Z
  else if Str.between 65 70 c then Some (Z.of_nat (Str.code c) - 55)%Z
  else if Str.between 97 102 c then Some (Z.of_nat (Str.code c) - 87)%Z
  else None.

Fixpoint percent_decode (s : string) : string :=
  match s with
  | EmptyString => EmptyString
  | String c s' =>
      let keep := String c (percent_decode s') in
      if Ascii.eqb c "%" then
        match s' with
        | String a (String b rest) =>
            match hex_value a, hex_value b with
            | Some h, Some l =>
                if (16 * h + l <? 128)%Z
                then String (Str.chr (16 * h + l)) (percent_decode rest)
                else keep
            | _, _ => keep
            end
        | _ => keep
        end
      else keep
  end.

Definition decoding_api : RequestPath := percent_decode.

(** A number check to run the scripts with: the numbers are the strings of
    decimal digits. *)
Definition digit_strings : NumberCheck :=
  fun cell => negb (String.eqb cell "") && Str.all Str.is_digit cell.

(** The request [download_image] sends for [url] *)
Definition download_request (url : string) : Request :=
  {| req_url := get_download_url url; req_stream := true; req_timeout := 30 |}.

(** What [download_image] makes of the host's answer *)
Definition payload (o : http_outcome) : option bytes :=
  match o with
  | Responded status content =>
      if ((400 <=? status) && (status <? 600))%Z then None else Some content
  | Failed _ => None
  end.

(** A file can be written at [path] on [branch]: the branch exists and
    the path is not a directory. *)
Definition writable (r : github.Repo) (branch path : string) : Prop :=
  branch ∈ github.branches r /\ github.listing r branch path = [].

(** The repository after a file was created or replaced at [path] *)
Definition stored (r r' : github.Repo) (branch path content : string)
    (created : bool) : Prop :=
  writable r branch path
  /\ if created then
       github.files r !! (branch, path) = None
       /\ r' = github.with_files r
                 (<[(branch, path) := {| github.content := content; github.sha := 0 |}]>
                    (github.files r))
     else
       exists blob,
         github.files r !! (branch, path) = Some blob
         /\ r' = github.with_files r
                   (<[(branch, path) := {| github.content := content;
                                           github.sha := S (github.sha blob) |}]>
                      (github.files r)).

(** The event of the trace that records it *)
Definition stored_event (branch path message : string) (created : bool) : event :=
  if created then Created branch path message else Updated branch path message.


(** The mapped URL when [cell] is a key of the mapping, [fallback]
    otherwise *)
Definition mapped_or (fallback : string) (url_mappings : gmap string string)
    (cell : string) : string :=
  default fallback (url_mappings !! cell).

(** A table with one image cell, for the rewriting of an unmapped cell *)
Definition unmapped_table : Dropbox.DataFrame :=
  {| Dropbox.columns := ["Image Src"];
     Dropbox.rows := [{["Image Src" := Some "https://example.com/mug.jpg"]}] |}.

(** [m] returns; it has entered [upload_to_github] on the URLs [us], in
    that order, and the local files are as before. *)
Definition runs {A} (m : M A) (us : list string) : Prop :=
  forall env w, exists a w',
    m env w = (Ret a, w')
    /\ uploads (trace w') = uploads (trace w) ++ us
    /\ fs w' = fs w.

(** [m] returns and leaves no event: it works on the local files only. *)
Definition returns {A} (m : M A) : Prop :=
  forall env w, exists a w',
    m env w = (Ret a, w') /\ trace w' = trace w /\ repo w' = repo w.

(** [m] leaves no event, whether it returns or raises. *)
Definition silent {A} (m : M A) : Prop :=
  forall env w, trace (snd (m env w)) = trace w.

(** [m] talks to the content API only: it may raise an exception, but it
    does not exit, fetches nothing, uploads nothing and leaves the local
    files alone. *)
Definition api_only {A} (m : M A) : Prop :=
  forall env w r w',
    m env w = (r, w') ->
    is_exception_result r = true
    /\ uploads (trace w') = uploads (trace w)
    /\ fetches (trace w') = fetches (trace w)
    /\ fs w' = fs w.

(** [url] is a cell of [row] that [simple_upload.py] collects. *)
Definition simple_candidate (row : Simple.Row) (url : string) : Prop :=
  Simple.dropbox_cell row "Image Src" = Some url
  \/ Simple.dropbox_cell row "Variant Image" = Some url.

(** [url] is a cell of column [col] that [dropbox_to_github.py] collects. *)
Definition dropbox_candidate (df : Dropbox.DataFrame) (col url : string) : Prop :=
  col ∈ Dropbox.columns df
  /\ Dropbox.re_search_dropbox_com url = true
  /\ exists row, row ∈ Dropbox.rows df /\ row !! col = Some (Some url).

(** The part of [simple_upload.py]'s [process_csv] that writes the two
    output files *)
Definition simple_output `{HostCheck} (csv_file : string)
    (url_mappings : gmap string string) (infile : CsvFile) : M unit :=
  open_w (output_name csv_file) ;;;
  fieldnames <-
    match csv_header infile with
    | Some fieldnames => ret (fieldnames ++ ["GitHub_Image_Src"; "GitHub_Variant_Image"])
    | None => raise TypeError
    end ;;
  write_header (output_name csv_file) fieldnames ;;;
  foldM (fun _ row => Simple.writerow (output_name csv_file) fieldnames
                        (Simple.rewrite_row url_mappings row))
        (Simple.DictReader infile) tt ;;;
  open_w "dropbox_to_github_mappings.csv" ;;;
  write_header "dropbox_to_github_mappings.csv" ["Dropbox_URL"; "GitHub_URL"] ;;;
  foldM (fun _ kv => write_line "dropbox_to_github_mappings.csv" [kv.1; kv.2])
        (map_to_list url_mappings) tt.


(** The image columns that [df] has are columns of text. *)
Definition text_images `{NumberCheck} (df : Dropbox.DataFrame) : Prop :=
  forall col,
    col ∈ ["Image Src"; "Variant Image"] ->
    col ∈ Dropbox.columns df ->
    Dropbox.is_text_column df col = true.

(** A small world to run the scripts in: the host serves three images,
    one under a name with an escaped space and one under a name with a
    space; the repository is new. *)
Definition demo_env : Env :=
  {| http_get := fun r =>
       if String.eqb (req_url r) "https://www.dropbox.com/s/abc/photo.jpg?dl=1"
       then Responded 200 [255; 216; 255]%Z
       else if String.eqb (req_url r) "https://www.dropbox.com/s/abc/my%20photo.jpg?dl=1"
       then Responded 200 [255; 216; 255]%Z
       else if String.eqb (req_url r) "https://www.dropbox.com/s/abc/my photo.jpg?dl=1"
       then Responded 200 [255; 216; 255]%Z
       else Failed Timeout;
     api_refuses := fun _ => false |}.


Definition demo_repo : github.Repo :=
  {| github.owner_login := "alex-halloran";
     github.name := "shopify-product-images";
     github.default_branch := "main";
     github.branches := {["main"]};
     github.files := ∅ |}.

Definition demo_csv : CsvFile :=
  {| csv_header := Some ["Handle"; "Image Src"; "Variant Image"];
     csv_rows :=
       [["shirt"; "https://www.dropbox.com/s/abc/photo.jpg?dl=0"; ""];
        ["shirt"; "https://www.dropbox.com/s/abc/photo.jpg?dl=0";
         "https://www.dropbox.com/s/zzz/gone.jpg?dl=0"];
        ["mug"; "https://example.com/mug.jpg"]] |}.

Definition demo_world : World :=
  {| repo := demo_repo; fs := {["import.csv" := demo_csv]}; trace := [] |}.

Definition demo_url : string := "https://www.dropbox.com/s/abc/photo.jpg?dl=0".

Definition spaced_url : string := "https://www.dropbox.com/s/abc/my photo.jpg?dl=0".


(** A repository with the branches [master] and [main], [master] being the
    default branch *)
Definition master_repo : github.Repo :=
  {| github.owner_login := "alex-halloran";
     github.name := "shopify-product-images";
     github.default_branch := "master";
     github.branches := {["master"; "main"]};
     github.files := ∅ |}.

Definition master_world : World :=
  {| repo := master_repo; fs := {["import.csv" := demo_csv]}; trace := [] |}.

(** The world after [simple_upload.py] published [demo_url] there *)
Definition master_once : World :=
  snd (@Simple.upload_to_github no_bracketed_host decoding_api
         demo_url demo_env master_world).

(** A table in which no product has a variant image *)
Definition plain_csv : CsvFile :=
  {| csv_header := Some ["Handle"; "Image Src"; "Variant Image"];
     csv_rows :=
       [["shirt"; "https://www.dropbox.com/s/abc/photo.jpg?dl=0"; ""];
        ["mug"; "https://example.com/mug.jpg"; ""]] |}.

Definition plain_world : World :=
  {| repo := demo_repo; fs := {["import.csv" := plain_csv]}; trace := [] |}.

(** ** Vocabulary of the further properties *)

(** The batches that the processing loop takes from the candidates *)
Definition batches {A} (l : list A) (size : nat) : list (list A) :=
  map (fun bi : nat * nat => sublist l bi.2 size) (enumerate_range (length l) size).

(** The pauses of a run, in seconds *)
Definition sleeps (t : list event) : list Z :=
  omap (fun e => match e with Slept seconds => Some seconds | _ => None end) t.

(** [m] returns, having paused as [seconds] tells. *)
Definition pauses {A} (m : M A) (seconds : list Z) : Prop :=
  forall env w, exists a w',
    m env w = (Ret a, w')
    /\ sleeps (trace w') = sleeps (trace w) ++ seconds.

(** [m] writes to no branch but [branch], and creates none. *)
Definition writes_only_to {A} (branch : string) (m : M A) : Prop :=
  forall env w r w',
    m env w = (r, w') ->
    github.branches (repo w') = github.branches (repo w)
    /\ forall b p,
         b <> branch ->
         github.files (repo w') !! (b, p) = github.files (repo w) !! (b, p).

(** A character that [quote] leaves in its output: one it does not escape,
    or one of an escape *)
Definition quoted_char (c : ascii) : bool :=
  urllib.always_safe c || Ascii.eqb c "/" || Ascii.eqb c "%".

(** * Properties *)

(** ** Strings *)

Section StrFacts.
Import Str.
Local Arguments Ascii.eqb : simpl never.
Local Arguments replace : simpl never.

Lemma drop_nil n : drop n "" = "".
Proof. by destruct n. Qed.

Lemma replace_from_skip a old' new k s :
  replace_from (String a old') new k s = replace (String a old') new (drop k s).
Proof.
  revert k; induction s as [|c s IH]; intros [|k]; simpl; try reflexivity.
  apply IH.
Qed.

Lemma replace_cons a old' new c s :
  replace (String a old') new (String c s) =
  if startswith (String a old') (String c s)
  then new +:+ replace (String a old') new (drop (String.length (String a old')) (String c s))
  else String c (replace (String a old') new s).
Proof.
  unfold replace at 1. cbn [replace_from].
  destruct (startswith _ _); [|reflexivity].
  by rewrite replace_from_skip.
Qed.

Lemma string_length_ind (P : string -> Prop) :
  (forall s, (forall t, String.length t < String.length s -> P t) -> P s) -> forall s, P s.
Proof.
  intros H s. remember (String.length s) as n eqn:Hn.
  revert s Hn. induction (lt_wf n) as [n _ IH]. intros s ->. apply H. intros t Ht. by apply (IH _ Ht).
Qed.

Lemma app_cons a s t : String a s +:+ t = String a (s +:+ t).
Proof. reflexivity. Qed.

Lemma startswith_split p s :
  startswith p s = true -> s = p +:+ drop (String.length p) s.
Proof.
  revert s; induction p as [|a p IH]; intros s H; [reflexivity|].
  destruct s as [|b s]; [discriminate|]. simpl in H.
  destruct (Ascii.eqb_spec a b) as [->|]; [|discriminate].
  rewrite app_cons. cbn. f_equal. by apply IH.
Qed.

Lemma string_length_app s t : String.length (s +:+ t) = String.length s + String.length t.
Proof. induction s as [|c s IH]; [reflexivity|]. rewrite app_cons. cbn. by rewrite IH. Qed.

(** Facts about the marker rewrite *)

Lemma flip_cons c s :
  replace "dl=0" "dl=1" (String c s) =
  if startswith "dl=0" (String c s)
  then "dl=1" +:+ replace "dl=0" "dl=1" (drop 4 (String c s))
  else String c (replace "dl=0" "dl=1" s).
Proof. apply replace_cons. Qed.

Lemma flip_length s : String.length (replace "dl=0" "dl=1" s) = String.length s.
Proof.
  induction s as [s IH] using string_length_ind.
  destruct s as [|c s]; [reflexivity|]. rewrite flip_cons.
  destruct (startswith _ _) eqn:E.
  - rewrite (startswith_split _ _ E) at 2. rewrite !string_length_app, IH; [reflexivity|].
    apply startswith_split in E. rewrite E at 2. rewrite string_length_app. cbn. lia.
  - cbn. rewrite IH; [reflexivity | cbn; lia].
Qed.

Lemma flip_get s i :
  String.get i (replace "dl=0" "dl=1" s) =
  if marker_end s i then Some "1"%char else String.get i s.
Proof.
  revert i; induction s as [s IH] using string_length_ind; intros i.
  destruct s as [|c s].
  { unfold marker_end. rewrite drop_nil. cbn. by rewrite andb_false_r. }
  rewrite flip_cons. destruct (startswith _ _) eqn:E.
  - pose proof (startswith_split _ _ E) as Hs. cbn [String.length] in Hs.
    set (t := drop 4 (String c s)) in *. clearbody t. rewrite Hs.
    do 4 (destruct i as [|i]; [reflexivity|]).
    change (String.get (S (S (S (S i)))) ("dl=1" +:+ ?r)) with (String.get i r).
    rewrite IH by (rewrite Hs, string_length_app; cbn; lia).
    unfold marker_end.
    do 3 (destruct i as [|i]; [reflexivity|]). cbn. by rewrite Nat.sub_0_r.
  - destruct i as [|i]; [reflexivity|].
    cbn [String.get]. rewrite IH by (cbn; lia). unfold marker_end.
    do 2 (destruct i as [|i]; [reflexivity|]).
    destruct i as [|i]; [cbn [Nat.leb Nat.sub drop andb]; by rewrite E|].
    cbn. by rewrite Nat.sub_0_r.
Qed.

Lemma flip_head p s :
  has_char "d"%char p = false ->
  startswith p (replace "dl=0" "dl=1" s) = true -> startswith p s = true.
Proof.
  revert s; induction p as [|a p IH]; intros s Hd H; [reflexivity|].
  cbn in Hd. apply orb_false_elim in Hd as [Ha Hp].
  destruct s as [|c s]; [discriminate|]. rewrite flip_cons in H.
  destruct (startswith "dl=0" _) eqn:E.
  - apply startswith_split in E. injection E as -> _.
    rewrite app_cons in H. cbn in H. rewrite Ascii.eqb_sym, Ha in H. discriminate.
  - cbn in H |- *. destruct (Ascii.eqb a c); [|discriminate]. by apply IH.
Qed.

Lemma flip_no_marker s : contains "dl=0" (replace "dl=0" "dl=1" s) = false.
Proof.
  induction s as [s IH] using string_length_ind.
  destruct s as [|c s]; [reflexivity|]. rewrite flip_cons.
  destruct (startswith _ _) eqn:E.
  - pose proof (startswith_split _ _ E) as Hs. cbn [String.length] in Hs.
    cbn -[drop replace]. apply IH. rewrite Hs at 2. rewrite string_length_app. cbn. lia.
  - cbn [contains]. rewrite IH by (cbn; lia). rewrite orb_false_r.
    destruct (startswith "dl=0" (String c (replace _ _ s))) eqn:F; [|reflexivity].
    cbn in F, E. destruct (Ascii.eqb "d"%char c); [|discriminate].
    apply (flip_head "l=0") in F; [|reflexivity]. cbn in F. congruence.
Qed.
End StrFacts.

(** C10: [get_download_url] is idempotent: applied to its own output it
    returns that output unchanged, for every URL string; the output of a
    rewriting application holds no preview marker [dl=0] any more. *)
Theorem get_download_url_idempotent (url : string) :
  get_download_url (get_download_url url) = get_download_url url.
Proof.
  unfold get_download_url at 2 3.
  destruct (Str.contains "dropbox.com" url && Str.contains "dl=0" url) eqn:E.
  - unfold get_download_url. by rewrite flip_no_marker, andb_false_r.
  - unfold get_download_url. by rewrite E.
Qed.

(** C2, as stated, fails.  A URL on the file-sharing host whose path also
    holds [dl=0] has both occurrences rewritten, not the one in the query
    alone; and a URL on another host that merely mentions [dropbox.com]
    is rewritten as well. *)
Lemma get_download_url_flips_beyond_query :
  get_download_url "https://www.dropbox.com/s/dl=0/photo.jpg?dl=0"
    = "https://www.dropbox.com/s/dl=1/photo.jpg?dl=1"
  /\ get_download_url "https://www.dropbox.com/s/dl=0/photo.jpg?dl=0"
    <> "https://www.dropbox.com/s/dl=0/photo.jpg?dl=1"
  /\ get_download_url "https://example.com/dropbox.com/photo.jpg?dl=0"
    = "https://example.com/dropbox.com/photo.jpg?dl=1".
Proof. split; [reflexivity | split; [discriminate | reflexivity]]. Qed.

(** C2, amended: when the URL string contains [dropbox.com] and [dl=0]
    anywhere, [get_download_url] returns a string of the same length in
    which the last character of every occurrence of [dl=0] has become [1]
    and every other character is unchanged; otherwise it returns its
    input. *)
Theorem get_download_url_rewrites_every_marker (url : string) :
  if Str.contains "dropbox.com" url && Str.contains "dl=0" url
  then String.length (get_download_url url) = String.length url
       /\ forall i, String.get i (get_download_url url) =
                    if marker_end url i then Some "1"%char else String.get i url
  else get_download_url url = url.
Proof.
  unfold get_download_url.
  destruct (Str.contains "dropbox.com" url && Str.contains "dl=0" url); [|reflexivity].
  split; [apply flip_length | apply flip_get].
Qed.

(** ** The derived file name *)

Section SafeFilenameFacts.
Context `{HostCheck}.
Local Arguments Ascii.eqb : simpl never.

Lemma split_hd_no_sep sep s : Str.has_char sep (hd EmptyString (Str.split sep s)) = false.
Proof.
  induction s as [|c s IH]; [reflexivity|]. cbn [Str.split].
  destruct (Ascii.eqb c sep) eqn:E; [reflexivity|].
  destruct (Str.split sep s) as [|w ws]; cbn in *.
  - by rewrite Ascii.eqb_sym, E.
  - by rewrite Ascii.eqb_sym, E, IH.
Qed.

Lemma get_safe_filename_unfold url :
  get_safe_filename url =
  rbind (urllib.urlparse url) (fun p =>
    let c := candidate (urllib.path p) in
    Ret (if (100 <? String.length c) || Str.has_char "&" c
         then hashlib.md5_hexdigest (Str.encode url) +:+ extension c
         else c)).
Proof.
  unfold get_safe_filename. destruct (urllib.urlparse url) as [p|e]; [|reflexivity].
  cbn [rbind]. fold (candidate (urllib.path p)).
  unfold candidate at 2. rewrite split_hd_no_sep, orb_false_r.
  fold (candidate (urllib.path p)). fold (extension (candidate (urllib.path p))).
  by destruct (_ || _).
Qed.

Lemma hex_lower_ok n : (0 <= n < 16)%Z -> is_lower_hex (hashlib.hex_lower n) = true.
Proof.
  intros Hn. assert (Hc : n ∈ (Z.of_nat <$> seq 0 16)).
  { apply list_elem_of_fmap. exists (Z.to_nat n). split; [lia|]. apply elem_of_seq. lia. }
  cbn in Hc. repeat (apply elem_of_cons in Hc as [->|Hc]; [reflexivity|]).
  by apply elem_of_nil in Hc.
Qed.

Lemma le_bytes_range n x b : b ∈ hashlib.le_bytes n x -> (0 <= b < 256)%Z.
Proof.
  unfold hashlib.le_bytes. intros (k & -> & _)%list_elem_of_fmap.
  change 255%Z with (Z.ones 8). rewrite Z.land_ones by lia.
  apply Z.mod_pos_bound. lia.
Qed.

Lemma le_bytes_length n x : length (hashlib.le_bytes n x) = n.
Proof. unfold hashlib.le_bytes. by rewrite length_map, length_seq. Qed.

Lemma digest_length msg : length (hashlib.digest msg) = 16.
Proof.
  unfold hashlib.digest. destruct (fold_left _ _ _) as [[[A B] C] D].
  by rewrite !length_app, !le_bytes_length.
Qed.

Lemma digest_range msg b : b ∈ hashlib.digest msg -> (0 <= b < 256)%Z.
Proof.
  unfold hashlib.digest. destruct (fold_left _ _ _) as [[[A B] C] D].
  rewrite !elem_of_app. intros [?|[?|[?|?]]]; by eapply le_bytes_range.
Qed.

Lemma md5_hexdigest_shape msg :
  String.length (hashlib.md5_hexdigest msg) = 32 /\
  Str.all is_lower_hex (hashlib.md5_hexdigest msg) = true.
Proof.
  unfold hashlib.md5_hexdigest.
  pose proof (digest_length msg) as Hl. pose proof (digest_range msg) as Hr.
  revert Hl Hr. generalize (hashlib.digest msg) as bs. intros bs.
  assert (G : forall bs : list Z, (forall b, b ∈ bs -> (0 <= b < 256)%Z) ->
    let s := fold_right (fun b acc => String (hashlib.hex_lower (b / 16)) (String (hashlib.hex_lower (b mod 16)) acc)) EmptyString bs in
    String.length s = 2 * length bs /\ Str.all is_lower_hex s = true).
  { clear. induction bs as [|b bs IH]; intros Hr; [done|].
    destruct IH as [IH1 IH2]; [intros; apply Hr; by right|].
    assert (0 <= b < 256)%Z as Hb by (apply Hr; by left).
    cbn [fold_right String.length Str.all length]. rewrite IH1, IH2.
    rewrite !hex_lower_ok; [split; [lia|done] | | ].
    - apply Z.mod_pos_bound; lia.
    - split; [apply Z.div_pos; lia | apply Z.div_lt_upper_bound; lia]. }
  intros Hl Hr. destruct (G bs Hr) as [G1 G2]. rewrite G1, Hl. done.
Qed.

End SafeFilenameFacts.

(** C1, as stated, fails: the query string is no part of the path, so the
    two example URLs are not hashed and get one and the same name. *)
Lemma get_safe_filename_same_name_for_both_queries :
  "https://www.dropbox.com/a/photo.jpg?x=1&y=2"
    <> "https://www.dropbox.com/b/photo.jpg?x=3&y=4"
  /\ @get_safe_filename no_bracketed_host
       "https://www.dropbox.com/a/photo.jpg?x=1&y=2" = Ret "photo.jpg"
  /\ @get_safe_filename no_bracketed_host
       "https://www.dropbox.com/b/photo.jpg?x=3&y=4" = Ret "photo.jpg".
Proof. split; [discriminate | split; vm_compute; reflexivity]. Qed.

(** C1, amended: [get_safe_filename] is deterministic, and it looks at the
    path of the URL only: two URLs whose paths end in the same segment, of
    at most 100 characters and without [&], get the same name, that
    segment, whatever their query strings are.  (Hashing applies only when
    the segment itself is too long or holds [&]; see C3.) *)
Theorem get_safe_filename_looks_at_path_only `{HostCheck} :
  (forall u1 u2 : string, u1 = u2 -> get_safe_filename u1 = get_safe_filename u2)
  /\ (forall (u1 u2 : string) (p1 p2 : urllib.ParseResult),
        urllib.urlparse u1 = Ret p1 ->
        urllib.urlparse u2 = Ret p2 ->
        posixpath.basename (urllib.path p1) = posixpath.basename (urllib.path p2) ->
        String.length (candidate (urllib.path p1)) <= 100 ->
        Str.has_char "&" (candidate (urllib.path p1)) = false ->
        get_safe_filename u1 = Ret (candidate (urllib.path p1))
        /\ get_safe_filename u2 = Ret (candidate (urllib.path p1))).
Proof.
  split; [by intros ? ? -> |].
  intros u1 u2 p1 p2 H1 H2 Hb Hlen Hamp.
  assert (Hc : candidate (urllib.path p2) = candidate (urllib.path p1))
    by (unfold candidate; by rewrite Hb).
  rewrite !get_safe_filename_unfold, H1, H2. cbn [rbind]. rewrite Hc, Hamp.
  destruct (Nat.ltb_spec 100 (String.length (candidate (urllib.path p1)))); [lia|done].
Qed.

Lemma get_safe_filename_looks_at_path_only_witness :
  @get_safe_filename no_bracketed_host
       "https://www.dropbox.com/a/photo.jpg?x=1&y=2" = Ret "photo.jpg"
  /\ @get_safe_filename no_bracketed_host
       "https://www.dropbox.com/b/photo.jpg?x=3&y=4" = Ret "photo.jpg".
Proof.
  destruct (@get_safe_filename_looks_at_path_only no_bracketed_host) as [_ Hpath].
  apply (Hpath "https://www.dropbox.com/a/photo.jpg?x=1&y=2"
               "https://www.dropbox.com/b/photo.jpg?x=3&y=4"
               {| urllib.scheme := "https"; urllib.netloc := "www.dropbox.com";
                  urllib.path := "/a/photo.jpg"; urllib.params := "";
                  urllib.query := "x=1&y=2"; urllib.fragment := "" |}
               {| urllib.scheme := "https"; urllib.netloc := "www.dropbox.com";
                  urllib.path := "/b/photo.jpg"; urllib.params := "";
                  urllib.query := "x=3&y=4"; urllib.fragment := "" |});
    vm_compute; first [reflexivity | lia].
Defined.

(** C3, as stated, fails: an empty candidate is not hashed.  A URL whose
    path ends in [/] is mapped to the empty string. *)
Lemma get_safe_filename_empty_name :
  @get_safe_filename no_bracketed_host "https://www.dropbox.com/s/abc/"
    = Ret EmptyString.
Proof. vm_compute; reflexivity. Qed.

(** C3, amended: when [urlparse] rejects the URL, [get_safe_filename]
    raises; otherwise, with the candidate being the last path segment up
    to its first [?], it returns the candidate, except when the candidate
    is longer than 100 characters or holds [&] (a [?] never remains in
    it), in which case it returns the MD5 digest of the whole URL, 32
    lower-case hexadecimal digits, followed by the candidate's extension,
    [.jpg] when it has none.  An empty candidate is returned as it is. *)
Theorem get_safe_filename_spec `{HostCheck} (url : string) :
  match urllib.urlparse url with
  | Raise e => get_safe_filename url = Raise e
  | Ret p =>
      let c := candidate (urllib.path p) in
      Str.has_char "?" c = false
      /\ get_safe_filename url =
           Ret (if (100 <? String.length c) || Str.has_char "&" c
                then hashlib.md5_hexdigest (Str.encode url) +:+ extension c
                else c)
      /\ match c with
         | EmptyString => get_safe_filename url = Ret EmptyString
         | String _ _ => True
         end
  end
  /\ String.length (hashlib.md5_hexdigest (Str.encode url)) = 32
  /\ Str.all is_lower_hex (hashlib.md5_hexdigest (Str.encode url)) = true.
Proof.
  split; [|apply md5_hexdigest_shape].
  rewrite get_safe_filename_unfold.
  destruct (urllib.urlparse url) as [p|e]; [|reflexivity]. cbn [rbind].
  split; [apply split_hd_no_sep|]. split; [reflexivity|].
  by destruct (candidate (urllib.path p)).
Qed.

(** ** Fetching and publishing *)

Ltac run :=
  cbv beta iota delta
    [bind ret raise lift emit try_except requests_get raise_for_status sleep
     is_exception fst snd].

Lemma download_image_run url env w :
  download_image url env w =
  (Ret (payload (http_get env (download_request url))), log w (HttpGet (download_request url))).
Proof.
  unfold download_image. run. fold (download_request url). unfold payload.
  destruct (http_get env (download_request url)) as [status content|e]; [|reflexivity].
  by destruct ((400 <=? status) && (status <? 600))%Z.
Qed.


Lemma listing_nil r b d :
  github.listing r b d = []
  <-> forall p blob,
        github.files r !! (b, p) = Some blob -> Str.startswith (d +:+ "/") p = false.
Proof.
  unfold github.listing. split.
  - intros Hnil p blob Hp. apply not_true_is_false. intros Hs.
    assert (Hin : p ∈ omap (fun '((b', p'), _) =>
                     if bool_decide (b' = b) && Str.startswith (d +:+ "/") p'
                     then Some p' else None) (map_to_list (github.files r))).
    { apply list_elem_of_omap. exists ((b, p), blob).
      split; [by apply elem_of_map_to_list|].
      by rewrite bool_decide_eq_true_2, Hs. }
    rewrite Hnil in Hin. by apply elem_of_nil in Hin.
  - intros Hall.
    destruct (omap _ (map_to_list (github.files r))) as [|p l] eqn:E; [done|].
    assert (Hin : p ∈ p :: l) by left. rewrite <- E in Hin.
    apply list_elem_of_omap in Hin as ([[b' p'] blob] & Hin & Hf).
    apply elem_of_map_to_list in Hin.
    destruct (bool_decide (b' = b)) eqn:Hb; [|done].
    apply bool_decide_eq_true in Hb as ->.
    rewrite (Hall _ _ Hin) in Hf. done.
Qed.


Lemma put_cases r b p c tok st r' :
  github.put r b p c tok = (st, r') ->
  (st = 201%Z /\ writable r b p /\ github.files r !! (b, p) = None /\ tok = None
   /\ r' = github.with_files r (<[(b, p) := {| github.content := c; github.sha := 0 |}]> (github.files r)))
  \/ (st = 200%Z /\ writable r b p
      /\ exists blob, github.files r !! (b, p) = Some blob /\ tok = Some (github.sha blob)
      /\ r' = github.with_files r (<[(b, p) := {| github.content := c; github.sha := S (github.sha blob) |}]> (github.files r)))
  \/ (st <> 200%Z /\ st <> 201%Z /\ r' = r).
Proof.
  unfold github.put. intros Hput.
  destruct (bool_decide (b ∈ github.branches r)
            && bool_decide (github.listing r b p = [])) eqn:Hw.
  - apply andb_true_iff in Hw as [Hb%bool_decide_eq_true Hl%bool_decide_eq_true].
    assert (Hwr : writable r b p) by done.
    repeat case_match; simplify_eq;
      try (right; right; repeat split; congruence).
    + right; left. split; [reflexivity|]. split; [done|].
      eexists. split; [reflexivity|].
      match goal with H : bool_decide _ = true |- _ => apply bool_decide_eq_true in H as -> end.
      done.
    + left. done.
  - repeat case_match; simplify_eq; right; right; repeat split; congruence.
Qed.


Lemma put_without_token r b p c blob :
  writable r b p ->
  github.files r !! (b, p) = Some blob ->
  github.put r b p c None = (422%Z, r).
Proof.
  intros [Hb Hl] Hf. unfold github.put.
  rewrite !bool_decide_eq_true_2 by done. cbn [andb]. by rewrite Hf.
Qed.

Ltac run_api :=
  cbv beta iota delta
    [bind ret raise lift emit try_except requests_get raise_for_status sleep
     is_exception fst snd contents_get contents_put
     Dropbox.get_contents Dropbox.update_file Dropbox.create_file
     Dropbox.blob_of Dropbox.entries_of Dropbox.the_repo Dropbox.default_branch].

Lemma get_safe_filename_raises `{HostCheck} url e :
  get_safe_filename url = Raise e -> e = ValueError.
Proof.
  rewrite get_safe_filename_unfold.
  unfold urllib.urlparse, urllib.urlsplit, rbind.
  intros Hr. repeat case_match; simplify_eq; done.
Qed.

Ltac status_facts :=
  repeat match goal with
  | H : (_ =? _)%Z = true |- _ => apply Z.eqb_eq in H
  | H : (_ =? _)%Z = false |- _ => apply Z.eqb_neq in H
  | H : bool_decide (_ ∈ [200%Z; 201%Z]) = true |- _ =>
      apply bool_decide_eq_true in H;
      rewrite !elem_of_cons, elem_of_nil in H
  | H : bool_decide (_ ∈ [200%Z; 201%Z]) = false |- _ =>
      apply bool_decide_eq_false in H;
      rewrite !elem_of_cons, elem_of_nil in H
  end.

Ltac case_status :=
  repeat match goal with
  | |- context [(?a =? ?b)%Z] => destruct (Z.eqb_spec a b)
  end.

Lemma get_file r b p blob :
  github.get r b p = Some (github.File blob) -> github.files r !! (b, p) = Some blob.
Proof. unfold github.get. intros Hg. repeat case_match; by simplify_eq. Qed.

Lemma get_not_file r b p :
  (forall blob, github.get r b p <> Some (github.File blob)) -> github.files r !! (b, p) = None.
Proof. unfold github.get. intros Hg. destruct (github.files r !! (b, p)); [by edestruct Hg|done]. Qed.


Section Upload.
Context `{HostCheck} `{RequestPath}.

Lemma simple_upload_inv url env w r w' :
  Simple.upload_to_github url env w = (r, w') ->
  (r = Ret (url, None) /\ repo w' = repo w /\ fs w' = fs w
   /\ (trace w' = trace w ++ [Upload url]
       \/ trace w' = trace w ++ [Upload url; HttpGet (download_request url)]))
  \/ (exists filename sha st,
        let file := request_path ("images/" +:+ filename) in
        get_safe_filename url = Ret filename
        /\ github.put (repo w) "main" file
             (base64.b64encode (default [] (payload (http_get env (download_request url))))) sha
           = (st, repo w')
        /\ (st = 200%Z \/ st = 201%Z)
        /\ fs w' = fs w
        /\ r = Ret (url, Some (pages_url Simple.GITHUB_USER Simple.GITHUB_REPO_NAME filename))
        /\ trace w' = trace w ++
             [Upload url; HttpGet (download_request url);
              if (st =? 201)%Z then Created "main" file ("Add image " +:+ filename)
              else Updated "main" file ("Add image " +:+ filename)]).
Proof.
  unfold Simple.upload_to_github. run_api.
  destruct (get_safe_filename url) as [filename|e] eqn:Hname.
  2:{ apply get_safe_filename_raises in Hname as ->. intros [= <- <-]. left. auto. }
  rewrite download_image_run. run_api.
  destruct (falsy _) eqn:Hf.
  { intros [= <- <-]. left. cbn. rewrite <- app_assoc. auto. }
  cbn [repo log].
  intros Hrun. repeat (case_match; simplify_eq/=); status_facts.
  all: try (left; repeat split; try reflexivity; right; by rewrite <- app_assoc).
  all: try (left;
            match goal with
            | Hp : github.put _ _ _ _ _ = _ |- _ =>
                apply put_cases in Hp as [(-> & _)|[(-> & _)|(_ & _ & ->)]]
            end; [tauto | tauto |];
            repeat split; try reflexivity; right; by rewrite <- app_assoc).
  all: right; eexists _, _, _; split; [reflexivity|]; (split; [eassumption|]).
  all: rewrite <- ?app_assoc; cbn [app]; case_status; intuition congruence.
Qed.

Lemma simple_upload_cases url env w r w' :
  Simple.upload_to_github url env w = (r, w') ->
  (r = Ret (url, None) /\ repo w' = repo w /\ fs w' = fs w
   /\ (trace w' = trace w ++ [Upload url]
       \/ trace w' = trace w ++ [Upload url; HttpGet (download_request url)]))
  \/ (exists filename created,
        let file := request_path ("images/" +:+ filename) in
        get_safe_filename url = Ret filename
        /\ stored (repo w) (repo w') "main" file
             (base64.b64encode (default [] (payload (http_get env (download_request url)))))
             created
        /\ fs w' = fs w
        /\ r = Ret (url, Some (pages_url Simple.GITHUB_USER Simple.GITHUB_REPO_NAME filename))
        /\ trace w' = trace w ++
             [Upload url; HttpGet (download_request url);
              stored_event "main" file ("Add image " +:+ filename) created]).
Proof.
  intros [?|(filename & sha & st & Hname & Hput & Hst & Hfs & -> & Htr)]%simple_upload_inv;
    [by left|right].
  apply put_cases in Hput
    as [(-> & Hw & Hnone & _ & Hr)|[(-> & Hw & blob & Hsome & _ & Hr)|(? & ? & _)]].
  - exists filename, true. unfold stored. cbn in *. auto 10.
  - exists filename, false. unfold stored. cbn in *. eauto 10.
  - destruct Hst; congruence.
Qed.

Lemma dropbox_upload_cases url k env w r w' :
  Dropbox.upload_to_github url k env w = (r, w') ->
  (r = Ret (url, None) /\ repo w' = repo w /\ fs w' = fs w
   /\ (trace w' = trace w ++ [Upload url]
       \/ trace w' = trace w ++ [Upload url; HttpGet (download_request url)]))
  \/ (exists filename created,
        let branch := github.default_branch (repo w) in
        let path := "images/" +:+ filename in
        let message := "Add image " +:+ filename +:+ " [batch " +:+ pretty k +:+ "]" in
        get_safe_filename url = Ret filename
        /\ stored (repo w) (repo w') branch path
             (base64.b64encode (default [] (payload (http_get env (download_request url)))))
             created
        /\ fs w' = fs w
        /\ r = Ret (url, Some (pages_url (github.owner_login (repo w)) (github.name (repo w))
                                  (urllib.quote filename)))
        /\ trace w' = trace w ++
             [Upload url; HttpGet (download_request url);
              stored_event branch path message created]).
Proof.
  unfold Dropbox.upload_to_github. run_api.
  destruct (get_safe_filename url) as [filename|e] eqn:Hname.
  2:{ apply get_safe_filename_raises in Hname as ->. intros [= <- <-]. left. auto. }
  rewrite download_image_run. run_api.
  destruct (falsy _) eqn:Hf.
  { intros [= <- <-]. left. cbn. rewrite <- app_assoc. auto. }
  cbn [repo log set_repo].
  intros Hrun. repeat (case_match; simplify_eq/=); status_facts; try congruence.
  all: try (left; repeat split; try reflexivity; right; by rewrite <- app_assoc).
  all: repeat match goal with
       | Hp : github.put _ _ _ _ _ = _ |- _ =>
           apply put_cases in Hp as [(? & ? & ? & ? & ?)|[(? & ? & ? & ? & ? & ?)|(? & ? & ?)]]
       | Hg : github.get _ _ _ = Some (github.File _) |- _ => apply get_file in Hg
       end; simplify_eq/=.
  all: try (left; repeat split; try reflexivity; right; by rewrite <- app_assoc).
  all: right; exists filename;
    first [ exists false; unfold stored; cbn; rewrite <- !app_assoc; by eauto 10
          | exists true; unfold stored; cbn; rewrite <- !app_assoc; by eauto 10
          | idtac ].
  all: exists true; unfold stored; cbn; rewrite <- !app_assoc;
    split; [done|]; split; [|done].
  all: split; [done|]; split; [|done]; apply get_not_file; congruence.
Qed.

End Upload.

Lemma stored_lookup r r' b p c created :
  stored r r' b p c created ->
  exists blob, github.files r' !! (b, p) = Some blob /\ github.content blob = c.
Proof.
  intros [_ Hst].
  destruct created; [destruct Hst as [_ ->]|destruct Hst as (? & _ & ->)]; cbn;
    rewrite lookup_insert_eq; eauto.
Qed.

Lemma stored_identity r r' b p c created :
  stored r r' b p c created ->
  github.owner_login r' = github.owner_login r /\ github.name r' = github.name r
  /\ github.default_branch r' = github.default_branch r.
Proof.
  intros [_ Hst].
  destruct created; [destruct Hst as [_ ->]|destruct Hst as (? & _ & ->)]; done.
Qed.


(** *** Publishing where the file exists *)

Section Update.
Context `{HostCheck} `{RequestPath}.



(** Where the file is on [main] and the default branch has no file of
    that name, [simple_upload.py] cannot replace it: the look-up names no
    branch, so that no token is sent. *)
Lemma simple_upload_off_default url env w name blob :
  let file := request_path ("images/" +:+ name) in
  get_safe_filename url = Ret name ->
  api_refuses env (Contents file) = false ->
  github.get (repo w) (github.default_branch (repo w)) file = None ->
  writable (repo w) "main" file ->
  github.files (repo w) !! ("main", file) = Some blob ->
  exists w',
    Simple.upload_to_github url env w = (Ret (url, None), w')
    /\ repo w' = repo w.
Proof.
  intros file Hname Hapi Hget Hw Hfile.
  unfold Simple.upload_to_github. run_api.
  rewrite Hname, download_image_run. run_api.
  destruct (falsy _); [by eexists|].
  cbn [repo log set_repo]. fold file. rewrite Hapi.
  change (default (github.default_branch (repo w)) None)
    with (github.default_branch (repo w)).
  rewrite Hget. cbv beta iota. cbn [repo log set_repo].
  change ((404 =? 200)%Z) with false. cbv beta iota.
  rewrite (put_without_token _ _ _ _ _ Hw Hfile). cbv beta iota.
  change ((422 =? 201)%Z) with false. change ((422 =? 200)%Z) with false.
  cbv beta iota.
  rewrite bool_decide_eq_false_2
    by (rewrite !elem_of_cons, elem_of_nil; intros [?|[?|[]]]; discriminate).
  by eexists.
Qed.

End Update.

(** C4, at the failing input.  The repository has the branches [master]
    and [main], and [master] is its default branch.  [simple_upload.py]
    publishes [demo_url]: the file is created on [main].  It publishes the
    same URL again: the look-up, which names no branch, is answered from
    [master] and finds nothing; no token is sent; the API turns the write
    on [main] down, and the call reports failure.  The object is not
    replaced, and the second call reports no public URL. *)
Theorem simple_upload_cannot_republish :
  @Simple.upload_to_github no_bracketed_host decoding_api demo_url demo_env master_world
  = (Ret (demo_url,
          Some "https://alex-halloran.github.io/shopify-product-images/images/photo.jpg"),
     master_once)
  /\ trace master_once
     = [Upload demo_url; HttpGet (download_request demo_url);
        Created "main" "images/photo.jpg" "Add image photo.jpg"]
  /\ fst (@Simple.upload_to_github no_bracketed_host decoding_api
            demo_url demo_env master_once)
     = Ret (demo_url, None)
  /\ repo (snd (@Simple.upload_to_github no_bracketed_host decoding_api
                  demo_url demo_env master_once))
     = repo master_once
  /\ trace (snd (@Simple.upload_to_github no_bracketed_host decoding_api
                   demo_url demo_env master_once))
     = trace master_once ++ [Upload demo_url; HttpGet (download_request demo_url)].
Proof. repeat split; vm_compute; reflexivity. Qed.

(** C8: [download_image] never raises.  It sends one request, streamed
    and with timeout 30, for [get_download_url url], and returns: the
    content of the response, or [None] when the status is one that
    [raise_for_status] rejects (400 to 599) or when no response came (a
    timeout or any other transport error). *)
Theorem download_image_never_raises (url : string) (env : Env) (w : World) :
  download_image url env w =
    (Ret (payload (http_get env (download_request url))),
     log w (HttpGet (download_request url)))
  /\ req_timeout (download_request url) = 30%Z
  /\ (forall status content,
        http_get env (download_request url) = Responded status content ->
        (400 <= status < 600)%Z ->
        fst (download_image url env w) = Ret None)
  /\ (forall e,
        http_get env (download_request url) = Failed e ->
        fst (download_image url env w) = Ret None).
Proof.
  rewrite download_image_run. split; [reflexivity|]. split; [reflexivity|].
  split.
  - intros status content -> [Hlo Hhi]. cbn.
    apply Z.leb_le in Hlo. apply Z.ltb_lt in Hhi. by rewrite Hlo, Hhi.
  - by intros e ->.
Qed.

Lemma download_image_never_raises_witness :
  fst (download_image "https://www.dropbox.com/s/zzz/gone.jpg?dl=0" demo_env demo_world)
    = Ret None.
Proof.
  destruct (download_image_never_raises
              "https://www.dropbox.com/s/zzz/gone.jpg?dl=0" demo_env demo_world)
    as (_ & _ & _ & Hfailed).
  apply (Hfailed Timeout). vm_compute; reflexivity.
Defined.

(** C5, at the failing input: for a URL whose last path segment holds a
    space, [simple_upload.py] reports a public URL that ends in the raw
    name [my photo.jpg]: the URL it stores in the mapping holds a space.
    [dropbox_to_github.py] reports the percent-escaped name
    [my%20photo.jpg] for the same URL. *)
Theorem simple_upload_reports_unescaped_name :
  @get_safe_filename no_bracketed_host spaced_url = Ret "my photo.jpg"
  /\ urllib.quote "my photo.jpg" = "my%20photo.jpg"
  /\ fst (@Simple.upload_to_github no_bracketed_host decoding_api
            spaced_url demo_env demo_world)
     = Ret (spaced_url,
            Some "https://alex-halloran.github.io/shopify-product-images/images/my photo.jpg")
  /\ fst (@Dropbox.upload_to_github no_bracketed_host spaced_url 0 demo_env demo_world)
     = Ret (spaced_url,
            Some "https://alex-halloran.github.io/shopify-product-images/images/my%20photo.jpg").
Proof. repeat split; vm_compute; reflexivity. Qed.

Section RoundTrip.
Context `{HostCheck} `{RequestPath}.

(** What each script reports for a URL it has published *)
Lemma dropbox_upload_reports_escaped_name url k env w g w' :
  Dropbox.upload_to_github url k env w = (Ret (url, Some g), w') ->
  exists filename,
    get_safe_filename url = Ret filename
    /\ g = pages_url (github.owner_login (repo w)) (github.name (repo w))
                     (urllib.quote filename).
Proof.
  intros [(? & _)|(filename & c & Hname & _ & _ & [= ->] & _)]%dropbox_upload_cases;
    [done|]. eauto.
Qed.

Lemma simple_upload_reports_raw_name url env w g w' :
  Simple.upload_to_github url env w = (Ret (url, Some g), w') ->
  exists filename,
    get_safe_filename url = Ret filename
    /\ g = pages_url "alex-halloran" "shopify-product-images" filename.
Proof.
  intros [(? & _)|(filename & c & Hname & _ & _ & [= ->] & _)]%simple_upload_cases;
    [done|]. eauto.
Qed.
End RoundTrip.

Lemma simple_rewrite_row_lookup url_mappings row :
  Simple.cells (Simple.rewrite_row url_mappings row) !! "GitHub_Image_Src"
    = Some (Some (match mjoin (Simple.cells row !! "Image Src") with
                  | Some cell => mapped_or "" url_mappings cell
                  | None => EmptyString
                  end))
  /\ Simple.cells (Simple.rewrite_row url_mappings row) !! "GitHub_Variant_Image"
    = Some (Some (match mjoin (Simple.cells row !! "Variant Image") with
                  | Some cell => mapped_or "" url_mappings cell
                  | None => EmptyString
                  end)).
Proof.
  unfold Simple.rewrite_row, Simple.rewrite_cell, mapped_or. cbn [Simple.cells].
  rewrite lookup_insert_ne by done. rewrite !lookup_insert_eq.
  rewrite lookup_insert_ne by done.
  split; f_equal; f_equal.
  - destruct (Simple.cells row !! "Image Src") as [[cell|]|]; cbn; [|done..].
    by destruct (url_mappings !! cell).
  - destruct (Simple.cells row !! "Variant Image") as [[cell|]|]; cbn; [|done..].
    by destruct (url_mappings !! cell).
Qed.

Lemma dropbox_rewrite_lookup url_mappings df i row' :
  Dropbox.rows (Dropbox.rewrite url_mappings df) !! i = Some row' ->
  exists row,
    Dropbox.rows df !! i = Some row
    /\ ("Image Src" ∈ Dropbox.columns df ->
        row' !! "GitHub_Image_Src"
        = Some (match mjoin (row !! "Image Src") with
                | Some cell => Some (mapped_or cell url_mappings cell)
                | None => None
                end))
    /\ ("Variant Image" ∈ Dropbox.columns df ->
        row' !! "GitHub_Variant_Image"
        = Some (match mjoin (row !! "Variant Image") with
                | Some cell => Some (mapped_or cell url_mappings cell)
                | None => None
                end)).
Proof.
  unfold Dropbox.rewrite, mapped_or.
  destruct (bool_decide ("Image Src" ∈ Dropbox.columns df)) eqn:Hi.
  - assert (Hv : bool_decide ("Variant Image" ∈ Dropbox.columns
                   (Dropbox.map_column url_mappings df "Image Src" "GitHub_Image_Src"))
                 = bool_decide ("Variant Image" ∈ Dropbox.columns df)).
    { cbn. case_match; [done|]. apply bool_decide_ext. set_solver. }
    rewrite Hv. destruct (bool_decide ("Variant Image" ∈ Dropbox.columns df)) eqn:Hv'.
    + cbn. rewrite !list_lookup_fmap.
      destruct (Dropbox.rows df !! i) as [row|]; [|done]. cbn. intros [= <-].
      exists row. split; [done|]. split; intros _.
      * rewrite lookup_insert_ne by done. by rewrite lookup_insert_eq.
      * rewrite lookup_insert_eq. by rewrite lookup_insert_ne by done.
    + cbn. rewrite !list_lookup_fmap.
      destruct (Dropbox.rows df !! i) as [row|]; [|done]. cbn. intros [= <-].
      exists row. split; [done|]. split.
      * intros _. by rewrite lookup_insert_eq.
      * intros Hin. by apply bool_decide_eq_false in Hv'.
  - destruct (bool_decide ("Variant Image" ∈ Dropbox.columns df)) eqn:Hv'.
    + cbn. rewrite !list_lookup_fmap.
      destruct (Dropbox.rows df !! i) as [row|]; [|done]. cbn. intros [= <-].
      exists row. split; [done|]. split.
      * intros Hin. by apply bool_decide_eq_false in Hi.
      * intros _. by rewrite lookup_insert_eq.
    + intros Hrow. exists row'. split; [done|]. split; intros Hin.
      * by apply bool_decide_eq_false in Hi.
      * by apply bool_decide_eq_false in Hv'.
Qed.

(** C6, as stated, fails on [dropbox_to_github.py]: a cell that is no key
    of the mapping is copied into the new column, which is not empty. *)

Lemma dropbox_rewrite_keeps_unmapped_cell :
  Dropbox.columns (Dropbox.rewrite ∅ unmapped_table) = ["Image Src"; "GitHub_Image_Src"]
  /\ (Dropbox.rows (Dropbox.rewrite ∅ unmapped_table) !! 0) ≫= (fun row => row !! "GitHub_Image_Src")
     = Some (Some "https://example.com/mug.jpg").
Proof. split; vm_compute; reflexivity. Qed.

(** C6, amended: in the rows [simple_upload.py] writes, each of the two
    new columns holds the mapped URL when the cell of its image column is
    a key of the mapping, and the empty string when it is not (or when
    there is no such cell).  In the table [dropbox_to_github.py] writes, a
    new column, added only when its image column exists, holds the mapped
    URL when the cell is a key of the mapping and the cell itself when it
    is not; an empty cell stays empty. *)
Theorem rewritten_columns (url_mappings : gmap string string) :
  (forall row,
     Simple.cells (Simple.rewrite_row url_mappings row) !! "GitHub_Image_Src"
       = Some (Some (match mjoin (Simple.cells row !! "Image Src") with
                     | Some cell => mapped_or "" url_mappings cell
                     | None => EmptyString
                     end))
     /\ Simple.cells (Simple.rewrite_row url_mappings row) !! "GitHub_Variant_Image"
       = Some (Some (match mjoin (Simple.cells row !! "Variant Image") with
                     | Some cell => mapped_or "" url_mappings cell
                     | None => EmptyString
                     end)))
  /\ (forall df i row',
        Dropbox.rows (Dropbox.rewrite url_mappings df) !! i = Some row' ->
        exists row,
          Dropbox.rows df !! i = Some row
          /\ ("Image Src" ∈ Dropbox.columns df ->
              row' !! "GitHub_Image_Src"
              = Some (match mjoin (row !! "Image Src") with
                      | Some cell => Some (mapped_or cell url_mappings cell)
                      | None => None
                      end))
          /\ ("Variant Image" ∈ Dropbox.columns df ->
              row' !! "GitHub_Variant_Image"
              = Some (match mjoin (row !! "Variant Image") with
                      | Some cell => Some (mapped_or cell url_mappings cell)
                      | None => None
                      end))).
Proof.
  split; [apply simple_rewrite_row_lookup | apply dropbox_rewrite_lookup].
Qed.

Lemma rewritten_columns_witness :
  exists row,
    Dropbox.rows unmapped_table !! 0 = Some row
    /\ (<["GitHub_Image_Src" := Some "https://example.com/mug.jpg"]> row)
         !! "GitHub_Image_Src"
       = Some (match mjoin (row !! "Image Src") with
               | Some cell => Some (mapped_or cell ∅ cell)
               | None => None
               end).
Proof.
  destruct (rewritten_columns ∅) as [_ Hdropbox].
  destruct (Hdropbox unmapped_table 0
              (<["GitHub_Image_Src" := Some "https://example.com/mug.jpg"]>
                 {["Image Src" := Some "https://example.com/mug.jpg"]}))
    as (row & Hrow & Himage & _).
  - vm_compute; reflexivity.
  - exists row. split; [exact Hrow|]. injection Hrow as <-.
    apply Himage. vm_compute. apply list_elem_of_here.
Defined.

(** ** Loops and runs *)

Lemma uploads_app t1 t2 : uploads (t1 ++ t2) = uploads t1 ++ uploads t2.
Proof. apply omap_app. Qed.

Lemma fetches_app t1 t2 : fetches (t1 ++ t2) = fetches t1 ++ fetches t2.
Proof. apply omap_app. Qed.

Lemma runs_ret {A} (a : A) : runs (ret a) [].
Proof. intros env w. exists a, w. by rewrite app_nil_r. Qed.

Lemma runs_bind {A B} (m : M A) (k : A -> M B) us vs :
  runs m us -> (forall a, runs (k a) vs) -> runs (bind m k) (us ++ vs).
Proof.
  intros Hm Hk env w. destruct (Hm env w) as (a & w1 & Em & Hu & Hf).
  destruct (Hk a env w1) as (b & w2 & Ek & Hu' & Hf').
  exists b, w2. unfold bind. rewrite Em, Ek.
  split; [done|]. split; [by rewrite Hu', Hu, app_assoc | congruence].
Qed.

Lemma runs_then {A B} (m : M A) (k : A -> M B) us :
  runs m us -> (forall a, runs (k a) []) -> runs (bind m k) us.
Proof. intros. rewrite <- (app_nil_r us). by apply runs_bind. Qed.

Lemma runs_foldM {A S} (body : S -> A -> M S) (f : A -> list string) l s :
  (forall s x, runs (body s x) (f x)) ->
  runs (foldM body l s) (concat (map f l)).
Proof.
  intros Hbody. revert s. induction l as [|x l IH]; intros s; cbn [foldM map concat].
  - apply runs_ret.
  - apply runs_bind; [apply Hbody | intros a; apply IH].
Qed.

Lemma runs_sleep_or_not (b : bool) : runs (if b then sleep 10 else ret tt) [].
Proof.
  destruct b; [|apply runs_ret]. intros env w. exists tt, (log w (Slept 10)).
  cbn. rewrite uploads_app. cbn. by rewrite !app_nil_r.
Qed.

(** The batches, one after the other, are the list they are cut from. *)
Lemma concat_take_drop {A} (l : list A) size m :
  concat (map (fun k => sublist l (k * size) size) (seq 0 m)) = take (m * size) l.
Proof.
  induction m as [|m IH]; [done|].
  rewrite seq_S, map_app, concat_app, IH. cbn [map concat]. rewrite app_nil_r.
  unfold sublist. rewrite take_take_drop. f_equal. lia.
Qed.

Lemma batches_cover {A} (l : list A) size :
  0 < size ->
  concat (map (fun bi : nat * nat => sublist l bi.2 size)
              (enumerate_range (length l) size)) = l.
Proof.
  intros Hsize. unfold enumerate_range. rewrite map_map. cbn [snd].
  rewrite concat_take_drop. apply take_ge.
  pose proof (Nat.div_mod_eq (length l + size - 1) size) as Hdm.
  pose proof (Nat.mod_upper_bound (length l + size - 1) size ltac:(lia)) as Hlt.
  nia.
Qed.

Section Runs.
Context `{HostCheck} `{RequestPath}.

Lemma simple_upload_runs url : runs (Simple.upload_to_github url) [url].
Proof.
  intros env w.
  destruct (Simple.upload_to_github url env w) as [r w'] eqn:E.
  apply simple_upload_cases in E as [(-> & _ & Hfs & [Ht|Ht])|(f & c & _ & _ & Hfs & -> & Ht)];
    eexists _, w'; (split; [reflexivity|]); (split; [|done]);
    rewrite Ht, uploads_app; cbn; try done. by destruct c.
Qed.

Lemma concat_singletons {A} (l : list A) : concat (map (fun x => [x]) l) = l.
Proof. induction l as [|x l IH]; [done|]. cbn. by rewrite IH. Qed.

Lemma simple_process_batch_runs urls m bi :
  runs (Simple.process_batch urls m bi) (sublist urls bi.2 Simple.BATCH_SIZE).
Proof.
  destruct bi as [k i]. unfold Simple.process_batch. cbn [snd].
  apply runs_then.
  - rewrite <- (concat_singletons (sublist _ _ _)) at 2.
    apply runs_foldM. intros s url.
    apply runs_then; [apply simple_upload_runs|].
    intros [o [[|c g]|]]; apply runs_ret.
  - intros m'. apply runs_then; [apply runs_sleep_or_not | intros; apply runs_ret].
Qed.

Lemma simple_loop_runs urls :
  runs (foldM (Simple.process_batch urls)
              (enumerate_range (length urls) Simple.BATCH_SIZE) ∅) urls.
Proof.
  rewrite <- (batches_cover urls Simple.BATCH_SIZE) at 3 by (unfold Simple.BATCH_SIZE; lia).
  apply runs_foldM. intros; apply simple_process_batch_runs.
Qed.

Lemma runs_try_except {A} (body : M A) handler us :
  runs body us -> runs (try_except body handler) us.
Proof.
  intros Hb env w. destruct (Hb env w) as (a & w' & E & ?).
  exists a, w'. unfold try_except. by rewrite E.
Qed.

Lemma dropbox_upload_runs url k : runs (Dropbox.upload_to_github url k) [url].
Proof.
  intros env w.
  destruct (Dropbox.upload_to_github url k env w) as [r w'] eqn:E.
  apply dropbox_upload_cases in E as [(-> & _ & Hfs & [Ht|Ht])|(f & c & _ & _ & Hfs & -> & Ht)];
    eexists _, w'; (split; [reflexivity|]); (split; [|done]);
    rewrite Ht, uploads_app; cbn; try done. by destruct c.
Qed.

Lemma dropbox_process_batch_runs urls m bi :
  runs (Dropbox.process_batch urls m bi) (sublist urls bi.2 Dropbox.BATCH_SIZE).
Proof.
  destruct bi as [k i]. unfold Dropbox.process_batch. cbn [snd].
  apply runs_then.
  - rewrite <- (concat_singletons (sublist _ _ _)) at 2.
    apply runs_foldM. intros s url. apply runs_try_except.
    apply runs_then; [apply dropbox_upload_runs|].
    intros [o [[|c g]|]]; apply runs_ret.
  - intros m'. apply runs_then; [apply runs_sleep_or_not | intros; apply runs_ret].
Qed.

Lemma dropbox_loop_runs urls :
  runs (foldM (Dropbox.process_batch urls)
              (enumerate_range (length urls) Dropbox.BATCH_SIZE) ∅) urls.
Proof.
  rewrite <- (batches_cover urls Dropbox.BATCH_SIZE) at 3 by (unfold Dropbox.BATCH_SIZE; lia).
  apply runs_foldM. intros; apply dropbox_process_batch_runs.
Qed.
End Runs.

(** ** Local files *)

Lemma bind_run {A B} (m : M A) (k : A -> M B) env w a w' :
  m env w = (Ret a, w') -> bind m k env w = k a env w'.
Proof. unfold bind. by intros ->. Qed.

Lemma open_csv_run name file env w :
  fs w !! name = Some file -> open_csv name env w = (Ret file, w).
Proof. unfold open_csv. by intros ->. Qed.

Lemma returns_ret {A} (a : A) : returns (ret a).
Proof. intros env w. by exists a, w. Qed.

Lemma returns_bind {A B} (m : M A) (k : A -> M B) :
  returns m -> (forall a, returns (k a)) -> returns (bind m k).
Proof.
  intros Hm Hk env w. destruct (Hm env w) as (a & w1 & Em & Ht & Hr).
  destruct (Hk a env w1) as (b & w2 & Ek & Ht' & Hr').
  exists b, w2. rewrite (bind_run _ _ _ _ _ _ Em). split; [done|]. split; congruence.
Qed.

Lemma returns_foldM {A S} (body : S -> A -> M S) l s :
  (forall s x, x ∈ l -> returns (body s x)) -> returns (foldM body l s).
Proof.
  revert s. induction l as [|x l IH]; intros s Hbody; cbn [foldM].
  - apply returns_ret.
  - apply returns_bind; [apply Hbody; by left|].
    intros s'. apply IH. intros s'' y Hy. apply Hbody. by right.
Qed.

Lemma returns_open_w name : returns (open_w name).
Proof. intros env w. by eexists _, _. Qed.

Lemma returns_write_header name header : returns (write_header name header).
Proof. intros env w. by eexists _, _. Qed.

Lemma returns_write_line name line : returns (write_line name line).
Proof. intros env w. by eexists _, _. Qed.

Lemma returns_silent {A} (m : M A) : returns m -> silent m.
Proof. intros Hm env w. destruct (Hm env w) as (a & w' & -> & Ht & _). done. Qed.

Lemma silent_ret {A} (a : A) : silent (ret a).
Proof. done. Qed.

Lemma silent_raise {A} e : silent (@raise A e).
Proof. done. Qed.

Lemma silent_bind {A B} (m : M A) (k : A -> M B) :
  silent m -> (forall a, silent (k a)) -> silent (bind m k).
Proof.
  intros Hm Hk env w. specialize (Hm env w). unfold bind.
  destruct (m env w) as [[a|e] w1]; cbn in *; [|done].
  by rewrite Hk.
Qed.

Lemma silent_foldM {A S} (body : S -> A -> M S) l s :
  (forall s x, silent (body s x)) -> silent (foldM body l s).
Proof.
  intros Hbody. revert s. induction l as [|x l IH]; intros s; cbn [foldM].
  - apply silent_ret.
  - apply silent_bind; [apply Hbody | intros; apply IH].
Qed.

Lemma silent_writerow name fieldnames row : silent (Simple.writerow name fieldnames row).
Proof.
  unfold Simple.writerow. case_match; [apply silent_raise|].
  apply returns_silent, returns_write_line.
Qed.

Lemma dropbox_to_csv_returns df name : returns (Dropbox.to_csv df name).
Proof.
  unfold Dropbox.to_csv.
  apply returns_bind; [apply returns_open_w|]. intros _.
  apply returns_bind; [apply returns_write_header|]. intros _.
  apply returns_foldM. intros; apply returns_write_line.
Qed.

Section Output.
Context `{HostCheck} `{RequestPath}.

Lemma simple_output_silent csv_file m infile : silent (simple_output csv_file m infile).
Proof.
  unfold simple_output.
  apply silent_bind; [apply returns_silent, returns_open_w|]. intros _.
  apply silent_bind; [case_match; [apply silent_ret | apply silent_raise]|]. intros fieldnames.
  apply silent_bind; [apply returns_silent, returns_write_header|]. intros _.
  apply silent_bind; [apply silent_foldM; intros; apply silent_writerow|]. intros _.
  apply silent_bind; [apply returns_silent, returns_open_w|]. intros _.
  apply silent_bind; [apply returns_silent, returns_write_header|]. intros _.
  apply silent_foldM. intros. apply returns_silent, returns_write_line.
Qed.

Lemma simple_process_csv_run csv_file file env w :
  fs w !! csv_file = Some file ->
  exists url_mappings w1,
    Simple.process_csv csv_file env w = simple_output csv_file url_mappings file env w1
    /\ uploads (trace w1) = uploads (trace w) ++ elements (Simple.collect (Simple.DictReader file))
    /\ fs w1 = fs w.
Proof.
  intros Hfile. unfold Simple.process_csv.
  rewrite (bind_run _ _ _ _ _ _ (open_csv_run _ _ env _ Hfile)).
  set (urls := elements _).
  rewrite (bind_run (emit _) _ env w tt (log w (MadeDir "images"))) by done.
  destruct (simple_loop_runs urls env (log w (MadeDir "images"))) as (m & w1 & E & Hu & Hf).
  rewrite (bind_run _ _ _ _ _ _ E).
  cbn in Hu, Hf. rewrite uploads_app in Hu. cbn in Hu. rewrite app_nil_r in Hu.
  rewrite (bind_run _ _ _ _ _ _ (open_csv_run csv_file file env w1 ltac:(by rewrite Hf))).
  by exists m, w1.
Qed.
End Output.

(** ** Rows that can be written back *)






Section Completes.
Context `{HostCheck} `{RequestPath}.



Lemma simple_process_csv_uploads csv_file file env w :
  fs w !! csv_file = Some file ->
  uploads (trace (snd (Simple.process_csv csv_file env w)))
  = uploads (trace w) ++ elements (Simple.collect (Simple.DictReader file)).
Proof.
  intros Hfile.
  destruct (simple_process_csv_run csv_file file env w Hfile) as (m & w1 & -> & Hu & _).
  by rewrite simple_output_silent.
Qed.
End Completes.

(** ** Calls of the content API *)

Lemma api_only_ret {A} (a : A) : api_only (ret a).
Proof. by intros env w r w' [= <- <-]. Qed.

Lemma api_only_raise {A} e : is_exception e = true -> api_only (@raise A e).
Proof. by intros He env w r w' [= <- <-]. Qed.

Lemma api_only_bind {A B} (m : M A) (k : A -> M B) :
  api_only m -> (forall a, api_only (k a)) -> api_only (bind m k).
Proof.
  intros Hm Hk env w r w'. unfold bind.
  destruct (m env w) as [[a|e] w1] eqn:Em.
  - intros Ek. destruct (Hm _ _ _ _ Em) as (_ & Hu & Hf & Hfs).
    destruct (Hk _ _ _ _ _ Ek) as (? & Hu' & Hf' & Hfs').
    split; [done|]. repeat split; congruence.
  - intros [= <- <-]. by apply (Hm _ _ _ _ Em).
Qed.

Lemma api_only_try_except {A} (body : M A) handler :
  api_only body -> (forall e, api_only (handler e)) -> api_only (try_except body handler).
Proof.
  intros Hb Hh env w r w'. unfold try_except.
  destruct (body env w) as [[a|e] w1] eqn:Eb.
  - intros [= <- <-]. by apply (Hb _ _ _ _ Eb).
  - destruct (Hb _ _ _ _ Eb) as (He & Hu & Hf & Hfs). cbn in He. rewrite He.
    intros Eh. destruct (Hh _ _ _ _ _ Eh) as (? & Hu' & Hf' & Hfs').
    split; [done|]. repeat split; congruence.
Qed.

Lemma api_only_foldM {A S} (body : S -> A -> M S) l s :
  (forall s x, api_only (body s x)) -> api_only (foldM body l s).
Proof.
  intros Hbody. revert s. induction l as [|x l IH]; intros s; cbn [foldM].
  - apply api_only_ret.
  - apply api_only_bind; [apply Hbody | intros; apply IH].
Qed.

Lemma api_only_contents_get path ref : api_only (contents_get path ref).
Proof.
  intros env w r w'. unfold contents_get.
  repeat case_match; by intros [= <- <-].
Qed.

Lemma api_only_contents_put path message content branch sha :
  api_only (contents_put path message content branch sha).
Proof.
  intros env w r w'. unfold contents_put.
  repeat case_match; intros [= <- <-]; cbn;
    rewrite ?uploads_app, ?fetches_app, ?app_nil_r; done.
Qed.

Lemma api_only_get_contents path ref : api_only (Dropbox.get_contents path ref).
Proof.
  unfold Dropbox.get_contents.
  apply api_only_bind; [apply api_only_contents_get|].
  intros [st [c|]]; [apply api_only_ret | by apply api_only_raise].
Qed.

Lemma api_only_blob_of c : api_only (Dropbox.blob_of c).
Proof. destruct c; [apply api_only_ret | by apply api_only_raise]. Qed.

Lemma api_only_entries_of c : api_only (Dropbox.entries_of c).
Proof. destruct c; [by apply api_only_raise | apply api_only_ret]. Qed.

Lemma api_only_update_file path message content sha branch :
  api_only (Dropbox.update_file path message content sha branch).
Proof.
  unfold Dropbox.update_file.
  apply api_only_bind; [apply api_only_contents_put|].
  intros st. case_match; [apply api_only_ret | by apply api_only_raise].
Qed.

Lemma api_only_create_file path message content branch :
  api_only (Dropbox.create_file path message content branch).
Proof.
  unfold Dropbox.create_file.
  apply api_only_bind; [apply api_only_contents_put|].
  intros st. case_match; [apply api_only_ret | by apply api_only_raise].
Qed.

Lemma api_only_default_branch : api_only Dropbox.default_branch.
Proof. by intros env w r w' [= <- <-]. Qed.

Lemma api_only_get_branch name : api_only (Dropbox.get_branch name).
Proof.
  intros env w r w'. unfold Dropbox.get_branch.
  repeat case_match; by intros [= <- <-].
Qed.

Lemma api_only_create_git_ref name from : api_only (Dropbox.create_git_ref name from).
Proof.
  intros env w r w'. unfold Dropbox.create_git_ref.
  repeat case_match; intros [= <- <-]; cbn;
    rewrite ?uploads_app, ?fetches_app, ?app_nil_r; done.
Qed.

Lemma api_only_get_repo : api_only Dropbox.get_repo.
Proof.
  intros env w r w'. unfold Dropbox.get_repo.
  repeat case_match; by intros [= <- <-].
Qed.

Create HintDb api discriminated.
#[local] Hint Resolve api_only_ret api_only_get_contents api_only_blob_of
  api_only_entries_of api_only_update_file api_only_create_file
  api_only_default_branch api_only_get_branch api_only_create_git_ref
  api_only_get_repo api_only_contents_get api_only_contents_put : api.

Ltac api :=
  repeat first
    [ solve [auto with api]
    | solve [by apply api_only_raise]
    | apply api_only_try_except; [|intros ?]
    | apply api_only_foldM; intros ? ?
    | apply api_only_bind; [|intros ?]
    | case_match ].

Lemma api_only_module_init : api_only Dropbox.module_init.
Proof. unfold Dropbox.module_init. api. Qed.

(** The statements of [publish_pages] under its outer [try] *)
Lemma publish_pages_returns env w :
  exists w',
    Dropbox.publish_pages env w = (Ret tt, w')
    /\ uploads (trace w') = uploads (trace w)
    /\ fetches (trace w') = fetches (trace w)
    /\ fs w' = fs w.
Proof.
  destruct (Dropbox.publish_pages env w) as [r w'] eqn:E. exists w'.
  assert (Hapi : api_only Dropbox.publish_pages).
  { unfold Dropbox.publish_pages. api. }
  destruct (Hapi _ _ _ _ E) as (_ & Hu & Hf & Hfs). split; [|done].
  revert E. unfold Dropbox.publish_pages, try_except at 1.
  match goal with |- context [match ?b env w with _ => _ end] =>
    assert (Hbody : api_only b) by api; destruct (b env w) as [[[]|e] w1] eqn:Eb end.
  - by intros [= <- <-].
  - destruct (Hbody _ _ _ _ Eb) as (He & _). cbn in He. rewrite He.
    by intros [= <- <-].
Qed.

(** ** The candidates *)

Lemma simple_collect_from rows (acc : gset string) url :
  url ∈ fold_left Simple.collect_row rows acc
  <-> url ∈ acc \/ exists row, row ∈ rows /\ simple_candidate row url.
Proof.
  revert acc. induction rows as [|row rows IH]; intros acc; cbn [fold_left].
  - split; [auto|]. intros [?|(row & Hrow & _)]; [done|]. by apply elem_of_nil in Hrow.
  - rewrite IH. unfold simple_candidate, Simple.collect_row. split.
    + intros [Hacc|(row' & Hrow' & Hc)].
      * destruct (Simple.dropbox_cell row "Image Src") as [u1|] eqn:E1;
          destruct (Simple.dropbox_cell row "Variant Image") as [u2|] eqn:E2;
          set_unfold; destruct_or?; subst; eauto 8 using list_elem_of_here.
      * right. exists row'. split; [by right|done].
    + intros [Hacc|(row' & Hrow' & Hc)].
      * left. repeat case_match; set_solver.
      * apply elem_of_cons in Hrow' as [->|Hrow']; [|by eauto].
        left. destruct Hc as [-> | ->]; repeat case_match; set_solver.
Qed.

Lemma simple_collect_spec rows url :
  url ∈ Simple.collect rows <-> exists row, row ∈ rows /\ simple_candidate row url.
Proof.
  unfold Simple.collect. rewrite simple_collect_from. set_solver.
Qed.

Lemma unique_spec seen l x : x ∈ Dropbox.unique seen l <-> x ∈ l /\ x ∉ seen.
Proof.
  revert seen. induction l as [|y l IH]; intros seen; cbn [Dropbox.unique].
  - set_solver.
  - case_bool_decide as Hy.
    + rewrite IH. set_solver.
    + rewrite elem_of_cons, IH. set_unfold.
      destruct (decide (x = y)); naive_solver.
Qed.

Section Candidates.
Context `{NumberCheck}.

Lemma dropbox_values_spec df col urls url :
  Dropbox.dropbox_values df col = Ret urls ->
  url ∈ urls
  <-> Dropbox.re_search_dropbox_com url = true
      /\ exists row, row ∈ Dropbox.rows df /\ row !! col = Some (Some url).
Proof.
  unfold Dropbox.dropbox_values. case_match; [|done]. intros [= <-].
  rewrite unique_spec, list_elem_of_omap. split.
  - intros [(row & Hrow & Hc) _]. repeat case_match; simplify_eq. eauto.
  - intros (Hre & row & Hrow & Hc). split; [|apply not_elem_of_nil].
    exists row. split; [done|]. by rewrite Hc, Hre.
Qed.

Lemma dropbox_values_text df col :
  Dropbox.is_text_column df col = true ->
  exists urls, Dropbox.dropbox_values df col = Ret urls.
Proof. unfold Dropbox.dropbox_values. intros ->. eauto. Qed.

Lemma dropbox_values_not_text df col :
  Dropbox.is_text_column df col = false ->
  Dropbox.dropbox_values df col = Raise AttributeError.
Proof. unfold Dropbox.dropbox_values. by intros ->. Qed.

Lemma dropbox_collect_spec df urls url :
  Dropbox.collect df = Ret urls ->
  url ∈ urls
  <-> dropbox_candidate df "Image Src" url \/ dropbox_candidate df "Variant Image" url.
Proof.
  unfold Dropbox.collect, dropbox_candidate, rbind.
  destruct (bool_decide ("Image Src" ∈ Dropbox.columns df)) eqn:Hi;
    [destruct (Dropbox.dropbox_values df "Image Src") as [v1|] eqn:E1; [|done]|];
    (destruct (bool_decide ("Variant Image" ∈ Dropbox.columns df)) eqn:Hv;
     [destruct (Dropbox.dropbox_values df "Variant Image") as [v2|] eqn:E2; [|done]|]);
    intros [= <-]; rewrite elem_of_elements, ?elem_of_list_to_set, ?elem_of_app;
    repeat match goal with
           | E : Dropbox.dropbox_values _ _ = Ret _ |- _ =>
               rewrite (dropbox_values_spec _ _ _ url E); clear E
           | Hb : bool_decide _ = true |- _ => apply bool_decide_eq_true in Hb
           | Hb : bool_decide _ = false |- _ => apply bool_decide_eq_false in Hb
           end;
    rewrite ?elem_of_empty; naive_solver.
Qed.

Lemma dropbox_collect_nodup df urls : Dropbox.collect df = Ret urls -> NoDup urls.
Proof.
  unfold Dropbox.collect, rbind. intros Hc.
  repeat case_match; simplify_eq; apply NoDup_elements.
Qed.

Lemma dropbox_collect_text df :
  text_images df -> exists urls, Dropbox.collect df = Ret urls.
Proof.
  intros Ht. unfold Dropbox.collect, rbind.
  destruct (bool_decide ("Image Src" ∈ Dropbox.columns df)) eqn:Hi.
  - apply bool_decide_eq_true in Hi.
    destruct (dropbox_values_text df "Image Src") as [v1 ->];
      [apply Ht; [set_solver|done]|].
    destruct (bool_decide ("Variant Image" ∈ Dropbox.columns df)) eqn:Hv; [|eauto].
    apply bool_decide_eq_true in Hv.
    destruct (dropbox_values_text df "Variant Image") as [v2 ->];
      [apply Ht; [set_solver|done]|]. eauto.
  - destruct (bool_decide ("Variant Image" ∈ Dropbox.columns df)) eqn:Hv; [|eauto].
    apply bool_decide_eq_true in Hv.
    destruct (dropbox_values_text df "Variant Image") as [v2 ->];
      [apply Ht; [set_solver|done]|]. eauto.
Qed.

(** A column that is there and is not of text stops the collection. *)
Lemma dropbox_collect_not_text df col :
  col ∈ ["Image Src"; "Variant Image"] ->
  col ∈ Dropbox.columns df ->
  Dropbox.is_text_column df col = false ->
  Dropbox.collect df = Raise AttributeError.
Proof.
  intros Hcol Hin Hnt. unfold Dropbox.collect, rbind.
  apply elem_of_cons in Hcol as [->|Hcol].
  - by rewrite bool_decide_eq_true_2, (dropbox_values_not_text _ _ Hnt).
  - apply list_elem_of_singleton in Hcol as ->.
    rewrite (bool_decide_eq_true_2 ("Variant Image" ∈ _)) by done.
    rewrite (dropbox_values_not_text _ _ Hnt).
    destruct (bool_decide ("Image Src" ∈ Dropbox.columns df)); [|done].
    unfold Dropbox.dropbox_values.
    by destruct (Dropbox.is_text_column df "Image Src").
Qed.

End Candidates.

(** ** [process_csv] of [dropbox_to_github.py] *)

Lemma read_csv_world csv_file env w r w' :
  Dropbox.read_csv csv_file env w = (r, w') -> w' = w.
Proof.
  unfold Dropbox.read_csv, bind, open_csv, raise, ret.
  intros Hread. repeat case_match; by simplify_eq.
Qed.


Section DropboxRuns.
Context `{HostCheck} `{NumberCheck}.

Lemma dropbox_process_csv_run csv_file env w df urls :
  Dropbox.read_csv csv_file env w = (Ret df, w) ->
  Dropbox.collect df = Ret urls ->
  exists w',
    Dropbox.process_csv csv_file env w = (Ret tt, w')
    /\ uploads (trace w') = uploads (trace w) ++ urls.
Proof.
  intros Hread Hurls. unfold Dropbox.process_csv.
  rewrite (bind_run _ _ _ _ _ _ Hread).
  rewrite (bind_run (lift _) _ env w urls w) by (by unfold lift; rewrite Hurls).
  destruct (dropbox_loop_runs urls env w) as (m & w1 & E & Hu & _).
  rewrite (bind_run _ _ _ _ _ _ E).
  destruct (dropbox_to_csv_returns (Dropbox.rewrite m df) (output_name csv_file) env w1)
    as ([] & w2 & E2 & Ht2 & _).
  rewrite (bind_run _ _ _ _ _ _ E2).
  match goal with |- context [Dropbox.to_csv ?d ?n] =>
    destruct (dropbox_to_csv_returns d n env w2) as ([] & w3 & E3 & Ht3 & _) end.
  rewrite (bind_run _ _ _ _ _ _ E3).
  destruct (publish_pages_returns env w3) as (w4 & -> & Hu4 & _).
  exists w4. split; [done|]. by rewrite Hu4, Ht3, Ht2.
Qed.





End DropboxRuns.

(** C7, at the failing input: a table in which no product has a variant
    image.  Its column [Variant Image] holds no text, so that
    [df['Variant Image'].str] raises [AttributeError] and
    [dropbox_to_github.py] ends there, having uploaded nothing.  The
    table has one candidate, the URL of its column [Image Src]:
    [simple_upload.py] collects it and uploads it once. *)
Theorem dropbox_stops_at_empty_image_column :
  @Dropbox.process_csv no_bracketed_host digit_strings "import.csv" demo_env plain_world
  = (Raise AttributeError, plain_world)
  /\ elements (Simple.collect (Simple.DictReader plain_csv)) = [demo_url]
  /\ uploads (trace (snd (@Simple.process_csv no_bracketed_host decoding_api
                            "import.csv" demo_env plain_world)))
     = [demo_url].
Proof. repeat split; vm_compute; reflexivity. Qed.




(** * Further properties *)

(** ** File names *)

Section NameFacts.
Local Arguments Ascii.eqb : simpl never.

Lemma rfind_range c s : (-1 <= Str.rfind c s < Z.of_nat (String.length s))%Z.
Proof.
  induction s as [|b s IH]; cbn [Str.rfind String.length]; [lia|].
  repeat case_match; lia.
Qed.

Lemma find_range c s : (-1 <= Str.find c s < Z.of_nat (String.length s))%Z.
Proof.
  induction s as [|b s IH]; cbn [Str.find String.length]; [lia|].
  repeat case_match; lia.
Qed.

Lemma has_char_drop c n s :
  Str.has_char c (Str.drop n s) = true -> Str.has_char c s = true.
Proof.
  revert n. induction s as [|b s IH]; intros [|n]; cbn; try done.
  intros Hd. rewrite (IH _ Hd). apply orb_true_r.
Qed.

Lemma has_char_take c n s :
  Str.has_char c (Str.take n s) = true -> Str.has_char c s = true.
Proof.
  revert n. induction s as [|b s IH]; intros [|n]; cbn; try done.
  intros [->|Hd]%orb_true_iff; [done|]. rewrite (IH _ Hd). apply orb_true_r.
Qed.

Lemma has_char_app c s t :
  Str.has_char c (s +:+ t) = Str.has_char c s || Str.has_char c t.
Proof.
  induction s as [|b s IH]; [done|]. rewrite app_cons. cbn.
  by rewrite IH, orb_assoc.
Qed.

Lemma take_drop_string n s : Str.take n s +:+ Str.drop n s = s.
Proof.
  revert n. induction s as [|b s IH]; intros [|n]; try done.
  cbn [Str.take Str.drop]. rewrite app_cons. by rewrite IH.
Qed.

Lemma after_rfind c s :
  Str.has_char c (Str.drop (Z.to_nat (Str.rfind c s + 1)) s) = false.
Proof.
  induction s as [|b s IH]; [done|]. cbn [Str.rfind].
  pose proof (rfind_range c s) as Hr.
  destruct (Z.leb_spec 0 (Str.rfind c s)).
  - replace (Z.to_nat (Str.rfind c s + 1 + 1)) with (S (Z.to_nat (Str.rfind c s + 1))) by lia.
    done.
  - replace (Str.rfind c s) with (-1)%Z in IH by lia.
    change (Str.has_char c s = false) in IH.
    destruct (Ascii.eqb c b) eqn:E; [done|].
    change (Str.has_char c (String b s) = false). cbn [Str.has_char]. by rewrite E, IH.
Qed.

Lemma at_rfind c s :
  (0 <= Str.rfind c s)%Z ->
  exists rest, Str.drop (Z.to_nat (Str.rfind c s)) s = String c rest.
Proof.
  induction s as [|b s IH]; cbn [Str.rfind]; [lia|].
  destruct (Z.leb_spec 0 (Str.rfind c s)) as [Hr|Hr].
  - intros _. destruct (IH Hr) as [rest Hrest]. exists rest.
    replace (Z.to_nat (Str.rfind c s + 1)) with (S (Z.to_nat (Str.rfind c s))) by lia.
    done.
  - destruct (Ascii.eqb_spec c b) as [->|]; [|lia]. intros _. by exists s.
Qed.

Lemma clip_nonneg s i :
  (0 <= i <= Z.of_nat (String.length s))%Z -> Str.clip s i = Z.to_nat i.
Proof.
  intros Hi. unfold Str.clip. destruct (Z.ltb_spec i 0); [lia|].
  f_equal. lia.
Qed.

Lemma basename_no_slash p : Str.has_char "/" (posixpath.basename p) = false.
Proof.
  unfold posixpath.basename, Str.slice_from.
  pose proof (rfind_range "/" p). rewrite clip_nonneg by lia. apply after_rfind.
Qed.

Lemma split_hd_has_char c sep s :
  Str.has_char c (hd EmptyString (Str.split sep s)) = true -> Str.has_char c s = true.
Proof.
  induction s as [|b s IH]; [done|]. cbn [Str.split].
  destruct (Ascii.eqb b sep); [done|].
  destruct (Str.split sep s) as [|w ws]; cbn in *.
  - rewrite orb_false_r. intros ->. done.
  - intros [->|Hw]%orb_true_iff; [done|]. rewrite (IH Hw). apply orb_true_r.
Qed.

(** The two parts [os.path.splitext] returns make up its argument, and
    the extension is empty or starts with a dot. *)
Lemma splitext_parts p :
  fst (posixpath.splitext p) +:+ snd (posixpath.splitext p) = p
  /\ (snd (posixpath.splitext p) = EmptyString
      \/ exists rest, snd (posixpath.splitext p) = String "." rest).
Proof.
  unfold posixpath.splitext.
  pose proof (rfind_range "/" p) as Hs. pose proof (rfind_range "." p) as Hd.
  destruct (_ && _) eqn:E; cbn [fst snd].
  - apply andb_true_iff in E as [Hlt%Z.ltb_lt _].
    unfold Str.slice_to, Str.slice_from. rewrite clip_nonneg by lia.
    split; [apply take_drop_string|]. right. apply at_rfind. lia.
  - split; [|by left]. clear. induction p as [|b p IH]; [done|].
    rewrite app_cons. by rewrite IH.
Qed.

Lemma all_has_char (P : ascii -> bool) c s :
  Str.all P s = true -> P c = false -> Str.has_char c s = false.
Proof.
  intros Hall HP. induction s as [|b s IH]; [done|]. cbn in *.
  apply andb_true_iff in Hall as [Hb Hs]. rewrite (IH Hs), orb_false_r.
  destruct (Ascii.eqb_spec c b) as [->|]; [congruence|done].
Qed.

Lemma extension_has_char c filename :
  c <> "."%char -> c <> "j"%char -> c <> "p"%char -> c <> "g"%char ->
  Str.has_char c (extension filename) = true -> Str.has_char c filename = true.
Proof.
  intros H1 H2 H3 H4. unfold extension.
  destruct (snd (posixpath.splitext filename)) as [|a ext] eqn:E.
  - cbn [Str.has_char]. intros Hc. exfalso.
    repeat (apply orb_true_iff in Hc as [Hc|Hc];
            [apply Ascii.eqb_eq in Hc; congruence|]).
    done.
  - rewrite <- E. unfold posixpath.splitext. case_match; cbn [snd]; [|done].
    apply has_char_drop.
Qed.
End NameFacts.

(** X1: a name that [get_safe_filename] returns holds neither [/] nor [?],
    hashed or not: the remote path [images/<name>] always has exactly one
    directory level. *)
Theorem get_safe_filename_is_one_segment `{HostCheck} (url name : string) :
  get_safe_filename url = Ret name ->
  Str.has_char "/" name = false /\ Str.has_char "?" name = false.
Proof.
  rewrite get_safe_filename_unfold.
  destruct (urllib.urlparse url) as [p|e]; [|done]. cbn [rbind].
  assert (Hslash : Str.has_char "/" (candidate (urllib.path p)) = false).
  { apply not_true_is_false. intros Hc%split_hd_has_char.
    by rewrite basename_no_slash in Hc. }
  assert (Hq : Str.has_char "?" (candidate (urllib.path p)) = false)
    by apply split_hd_no_sep.
  destruct (_ || _); intros [= <-]; [|done].
  destruct (md5_hexdigest_shape (Str.encode url)) as [_ Hhex].
  rewrite !has_char_app, !(all_has_char _ _ _ Hhex) by done. cbn [orb].
  split; apply not_true_is_false; intros Hc%extension_has_char; congruence.
Qed.

Lemma get_safe_filename_is_one_segment_witness :
  Str.has_char "/" "9ad19784aaff75218b586ff94b2a89b4.png" = false
  /\ Str.has_char "?" "9ad19784aaff75218b586ff94b2a89b4.png" = false.
Proof.
  apply (@get_safe_filename_is_one_segment no_bracketed_host "http://h/a&b.png?dl=0").
  vm_compute; reflexivity.
Defined.

(** ** Output file names *)

Lemma string_app_inv_l s t u : s +:+ t = s +:+ u -> t = u.
Proof. induction s as [|c s IH]; [done|]. rewrite !app_cons. intros [= E]. auto. Qed.

(** X2: the rewritten table is never written over the input file, nor over
    the mapping file: [splitext(csv_file)[0] + '_with_github_urls.csv']
    differs from [csv_file] and from [dropbox_to_github_mappings.csv], for
    every input file name. *)
Theorem output_name_is_fresh (csv_file : string) :
  output_name csv_file <> csv_file
  /\ output_name csv_file <> "dropbox_to_github_mappings.csv".
Proof.
  unfold output_name.
  destruct (splitext_parts csv_file) as [Hparts Hext].
  set (root := fst (posixpath.splitext csv_file)) in *.
  set (ext := snd (posixpath.splitext csv_file)) in *.
  clearbody root ext. subst csv_file.
  split.
  - intros Heq. apply string_app_inv_l in Heq.
    destruct Hext as [Hext|[rest Hext]]; rewrite Hext in Heq; discriminate.
  - intros Heq. pose proof (f_equal String.length Heq) as Hlen.
    rewrite string_length_app in Hlen. cbn in Hlen.
    do 10 (destruct root as [|? root]; [try discriminate Hlen; try discriminate Heq|]);
      cbn in Hlen; try lia.
    all: rewrite ?app_cons in Heq; discriminate Heq.
Qed.

(** ** The host filter *)

(** X3: the filter of [dropbox_to_github.py], the pattern [dropbox.com]
    read as a regular expression, accepts every cell that the substring
    test of [simple_upload.py] accepts. *)
Theorem substring_test_implies_pattern (value : string) :
  Str.contains "dropbox.com" value = true ->
  Dropbox.re_search_dropbox_com value = true.
Proof.
  induction value as [|c value IH]; [done|].
  cbn [Str.contains Dropbox.re_search_dropbox_com].
  intros [Hhere|Hlater]%orb_true_iff; [|rewrite (IH Hlater); apply orb_true_r].
  apply orb_true_iff. left.
  apply startswith_split in Hhere. rewrite Hhere. reflexivity.
Qed.

Lemma substring_test_implies_pattern_witness :
  Dropbox.re_search_dropbox_com "https://www.dropbox.com/s/abc/photo.jpg?dl=0" = true.
Proof. apply substring_test_implies_pattern. reflexivity. Defined.

(** X4: the request that [download_image] sends for a URL that mentions
    [dropbox.com] never carries the preview marker [dl=0]. *)
Theorem download_request_is_direct (url : string) (env : Env) (w : World) :
  Str.contains "dropbox.com" url = true ->
  exists r,
    fetches (trace (snd (download_image url env w))) = fetches (trace w) ++ [r]
    /\ Str.contains "dl=0" (req_url r) = false.
Proof.
  intros Hhost. exists (download_request url). rewrite download_image_run. cbn.
  rewrite fetches_app. split; [done|].
  unfold get_download_url. rewrite Hhost. cbn [andb].
  destruct (Str.contains "dl=0" url) eqn:E; [apply flip_no_marker | done].
Qed.

Lemma download_request_is_direct_witness :
  exists r,
    fetches (trace (snd (download_image demo_url demo_env demo_world))) = [] ++ [r]
    /\ Str.contains "dl=0" (req_url r) = false.
Proof. apply (download_request_is_direct demo_url demo_env demo_world). reflexivity. Defined.

(** ** One upload *)

Lemma stored_frame r r' b p c created key :
  stored r r' b p c created ->
  key <> (b, p) ->
  github.files r' !! key = github.files r !! key
  /\ github.branches r' = github.branches r.
Proof.
  intros [_ Hst] Hkey.
  destruct created; [destruct Hst as [_ ->]|destruct Hst as (? & _ & ->)];
    cbn; by rewrite lookup_insert_ne.
Qed.

(** X5: [upload_to_github] never raises and hands back the URL it was
    given.  It leaves the local files alone and changes at most one object
    of the repository: in [simple_upload.py] the file on [main] that the
    content API takes the raw path [images/<name>] of the request to
    name, in [dropbox_to_github.py] the file [images/<name>] on the
    default branch.  Every other file is as before. *)
Theorem upload_touches_one_object `{HostCheck} `{RequestPath} (url : string)
    (env : Env) (w : World) :
  (exists g w',
     Simple.upload_to_github url env w = (Ret (url, g), w')
     /\ fs w' = fs w
     /\ forall key,
          (forall name, get_safe_filename url = Ret name ->
                        key <> ("main", request_path ("images/" +:+ name))) ->
          github.files (repo w') !! key = github.files (repo w) !! key)
  /\ (forall k, exists g w',
        Dropbox.upload_to_github url k env w = (Ret (url, g), w')
        /\ fs w' = fs w
        /\ forall key,
             (forall name, get_safe_filename url = Ret name ->
                           key <> (github.default_branch (repo w), "images/" +:+ name)) ->
             github.files (repo w') !! key = github.files (repo w) !! key).
Proof.
  split; [|intros k].
  - destruct (Simple.upload_to_github url env w) as [r w'] eqn:E.
    apply simple_upload_cases in E
      as [(-> & Hrepo & Hfs & _)|(name & c & Hname & Hst & Hfs & -> & _)].
    + eexists _, w'. split; [done|]. split; [done|]. intros key _. by rewrite Hrepo.
    + eexists _, w'. split; [done|]. split; [done|]. intros key Hkey.
      by eapply stored_frame; [exact Hst | apply Hkey].
  - destruct (Dropbox.upload_to_github url k env w) as [r w'] eqn:E.
    apply dropbox_upload_cases in E
      as [(-> & Hrepo & Hfs & _)|(name & c & Hname & Hst & Hfs & -> & _)].
    + eexists _, w'. split; [done|]. split; [done|]. intros key _. by rewrite Hrepo.
    + eexists _, w'. split; [done|]. split; [done|]. intros key Hkey.
      by eapply stored_frame; [exact Hst | apply Hkey].
Qed.

Lemma upload_touches_one_object_witness :
  github.files
    (repo (snd (@Simple.upload_to_github no_bracketed_host decoding_api
                  "https://www.dropbox.com/s/abc/my%20photo.jpg?dl=0"
                  demo_env demo_world)))
    !! ("main", "images/my%20photo.jpg")
  = github.files (repo demo_world) !! ("main", "images/my%20photo.jpg").
Proof.
  destruct (@upload_touches_one_object no_bracketed_host decoding_api
              "https://www.dropbox.com/s/abc/my%20photo.jpg?dl=0" demo_env demo_world)
    as [(g & w' & Hrun & _ & Hframe) _].
  rewrite Hrun. cbn [snd]. apply Hframe.
  intros name Hname. vm_compute in Hname. injection Hname as <-.
  intros Hkey. vm_compute in Hkey. discriminate Hkey.
Defined.

(** X6: when no name can be derived from the URL, or the download brings
    nothing (an error status, no response, or an empty body), [upload_to_github]
    reports failure and sends nothing to the content API: the repository
    is as before and the trace holds the call and at most the one fetch. *)
Theorem upload_without_payload `{HostCheck} `{RequestPath} (url : string)
    (env : Env) (w : World) :
  (exists e, get_safe_filename url = Raise e)
  \/ falsy (payload (http_get env (download_request url))) = true ->
  (exists w',
     Simple.upload_to_github url env w = (Ret (url, None), w')
     /\ repo w' = repo w
     /\ (trace w' = trace w ++ [Upload url]
         \/ trace w' = trace w ++ [Upload url; HttpGet (download_request url)]))
  /\ (forall k, exists w',
        Dropbox.upload_to_github url k env w = (Ret (url, None), w')
        /\ repo w' = repo w
        /\ (trace w' = trace w ++ [Upload url]
            \/ trace w' = trace w ++ [Upload url; HttpGet (download_request url)])).
Proof.
  intros Hnothing. split; [|intros k].
  - unfold Simple.upload_to_github. run_api.
    destruct (get_safe_filename url) as [name|e] eqn:Hname.
    + destruct Hnothing as [[e ?]|Hfalsy]; [done|].
      rewrite download_image_run. run_api. rewrite Hfalsy.
      eexists. split; [reflexivity|]. split; [done|]. right. cbn. by rewrite <- app_assoc.
    + apply get_safe_filename_raises in Hname as ->.
      eexists. split; [reflexivity|]. split; [done|]. by left.
  - unfold Dropbox.upload_to_github. run_api.
    destruct (get_safe_filename url) as [name|e] eqn:Hname.
    + destruct Hnothing as [[e ?]|Hfalsy]; [done|].
      rewrite download_image_run. run_api. rewrite Hfalsy.
      eexists. split; [reflexivity|]. split; [done|]. right. cbn. by rewrite <- app_assoc.
    + apply get_safe_filename_raises in Hname as ->.
      eexists. split; [reflexivity|]. split; [done|]. by left.
Qed.

Lemma upload_without_payload_witness :
  exists w',
    @Simple.upload_to_github no_bracketed_host decoding_api
      "https://www.dropbox.com/s/zzz/gone.jpg?dl=0" demo_env demo_world
    = (Ret ("https://www.dropbox.com/s/zzz/gone.jpg?dl=0", None), w')
    /\ repo w' = repo demo_world.
Proof.
  destruct (@upload_without_payload no_bracketed_host decoding_api
              "https://www.dropbox.com/s/zzz/gone.jpg?dl=0" demo_env demo_world)
    as [(w' & Hrun & Hrepo & _) _].
  - right. vm_compute; reflexivity.
  - exists w'. split; [exact Hrun | exact Hrepo].
Defined.

(** ** Publishing twice *)



(** X8: where a file is on the branch [main] and the default branch of the
    repository has nothing under that name, [simple_upload.py] cannot
    replace it: its look-up names no branch and is answered from the
    default branch, so that it sends no token, the API turns the write on
    [main] down, and the call reports failure and leaves the repository
    as it is, whatever was downloaded. *)
Theorem simple_upload_needs_default_main `{HostCheck} `{RequestPath}
    (url name : string) (env : Env) (w : World) (blob : github.Blob) :
  let file := request_path ("images/" +:+ name) in
  get_safe_filename url = Ret name ->
  api_refuses env (Contents file) = false ->
  github.get (repo w) (github.default_branch (repo w)) file = None ->
  writable (repo w) "main" file ->
  github.files (repo w) !! ("main", file) = Some blob ->
  exists w',
    Simple.upload_to_github url env w = (Ret (url, None), w')
    /\ repo w' = repo w.
Proof. apply simple_upload_off_default. Qed.

Lemma simple_upload_needs_default_main_witness :
  exists w',
    @Simple.upload_to_github no_bracketed_host decoding_api demo_url demo_env master_once
    = (Ret (demo_url, None), w')
    /\ repo w' = repo master_once.
Proof.
  apply (@simple_upload_needs_default_main no_bracketed_host decoding_api
           demo_url "photo.jpg" demo_env master_once
           {| github.content := "/9j/"; github.sha := 0 |}).
  - vm_compute; reflexivity.
  - reflexivity.
  - vm_compute; reflexivity.
  - split; [vm_compute; set_solver | vm_compute; reflexivity].
  - vm_compute; reflexivity.
Defined.

(** ** The candidates and the uploads of a run *)

(** X9: [simple_upload.py] collects the candidates into a set: the list it
    works through holds no URL twice, it holds exactly the cells of the
    two image columns that are not empty and contain [dropbox.com], and a
    run of [process_csv] on a file that is there enters [upload_to_github]
    once on each, in the order of that list, whatever the image host and
    the API answer. *)
Theorem simple_uploads_each_candidate_once `{HostCheck} `{RequestPath}
    (env : Env) (w : World) (csv_file : string) (file : CsvFile) :
  fs w !! csv_file = Some file ->
  let candidates := elements (Simple.collect (Simple.DictReader file)) in
  NoDup candidates
  /\ (forall url, url ∈ candidates
                   <-> exists row, row ∈ Simple.DictReader file
                                   /\ simple_candidate row url)
  /\ uploads (trace (snd (Simple.process_csv csv_file env w)))
     = uploads (trace w) ++ candidates.
Proof.
  intros Hfile candidates. split; [apply NoDup_elements|].
  split; [intros url; unfold candidates; rewrite elem_of_elements;
          apply simple_collect_spec|].
  by apply simple_process_csv_uploads.
Qed.

Lemma simple_uploads_each_candidate_once_witness :
  NoDup (elements (Simple.collect (Simple.DictReader demo_csv)))
  /\ uploads (trace (snd (@Simple.process_csv no_bracketed_host decoding_api
                            "import.csv" demo_env demo_world)))
     = uploads (trace demo_world) ++ elements (Simple.collect (Simple.DictReader demo_csv)).
Proof.
  destruct (@simple_uploads_each_candidate_once no_bracketed_host decoding_api
              demo_env demo_world "import.csv" demo_csv)
    as (Hnodup & _ & Huploads); [vm_compute; reflexivity | by split].
Defined.

(** X10: when [dropbox_to_github.py] has read the table and the image
    columns it has are columns of text, the candidates are collected: a
    list without repetition that holds exactly the cells of the image
    columns that match [dropbox.com]; the run of [process_csv] completes
    and enters [upload_to_github] once on each of them, in the order of
    that list (the workers being run in the order of submission),
    whatever the image host and the API answer. *)
Theorem dropbox_uploads_each_candidate_once `{HostCheck} `{NumberCheck}
    (env : Env) (w : World) (csv_file : string) (df : Dropbox.DataFrame) :
  fst (Dropbox.read_csv csv_file env w) = Ret df ->
  text_images df ->
  exists candidates,
    Dropbox.collect df = Ret candidates
    /\ NoDup candidates
    /\ (forall url, url ∈ candidates
                     <-> dropbox_candidate df "Image Src" url
                         \/ dropbox_candidate df "Variant Image" url)
    /\ fst (Dropbox.process_csv csv_file env w) = Ret tt
    /\ uploads (trace (snd (Dropbox.process_csv csv_file env w)))
       = uploads (trace w) ++ candidates.
Proof.
  intros Hread Htext.
  destruct (dropbox_collect_text df Htext) as [candidates Hc].
  exists candidates. split; [done|].
  split; [by eapply dropbox_collect_nodup|].
  split; [intros url; by apply dropbox_collect_spec|].
  destruct (Dropbox.read_csv csv_file env w) as [r w0] eqn:E. cbn in Hread. subst r.
  pose proof (read_csv_world _ _ _ _ _ E) as ->.
  by destruct (dropbox_process_csv_run _ _ _ _ _ E Hc) as (w' & -> & Hu).
Qed.

Lemma dropbox_uploads_each_candidate_once_witness :
  exists candidates,
    NoDup candidates
    /\ uploads (trace (snd (@Dropbox.process_csv no_bracketed_host digit_strings
                              "import.csv" demo_env demo_world)))
       = uploads (trace demo_world) ++ candidates.
Proof.
  destruct (@dropbox_uploads_each_candidate_once no_bracketed_host digit_strings
              demo_env demo_world "import.csv"
              {| Dropbox.columns := ["Handle"; "Image Src"; "Variant Image"];
                 Dropbox.rows :=
                   map (Dropbox.read_line ["Handle"; "Image Src"; "Variant Image"])
                       (csv_rows demo_csv) |})
    as (candidates & _ & Hnodup & _ & _ & Huploads).
  - vm_compute; reflexivity.
  - intros col Hcol _.
    apply elem_of_cons in Hcol as [->|Hcol];
      [|apply list_elem_of_singleton in Hcol as ->]; vm_compute; reflexivity.
  - exists candidates. split; [exact Hnodup | exact Huploads].
Defined.

(** X11: a column without text stops [dropbox_to_github.py].  When the
    table has a row and one of the two image columns is there with every
    cell empty, [df[col].str] raises [AttributeError]: [process_csv] ends
    with it before any upload, and nothing at all has happened, even when
    the other image column holds URLs to migrate. *)
Theorem dropbox_needs_text_columns `{HostCheck} `{NumberCheck}
    (env : Env) (w : World) (csv_file col : string) (df : Dropbox.DataFrame) :
  fst (Dropbox.read_csv csv_file env w) = Ret df ->
  col ∈ ["Image Src"; "Variant Image"] ->
  col ∈ Dropbox.columns df ->
  Dropbox.rows df <> [] ->
  (forall row, row ∈ Dropbox.rows df -> mjoin (row !! col) = None) ->
  Dropbox.process_csv csv_file env w = (Raise AttributeError, w).
Proof.
  intros Hread Hcol Hin Hrows Hempty.
  destruct (Dropbox.read_csv csv_file env w) as [r w0] eqn:E. cbn in Hread. subst r.
  pose proof (read_csv_world _ _ _ _ _ E) as ->.
  unfold Dropbox.process_csv. rewrite (bind_run _ _ _ _ _ _ E).
  unfold bind, lift. rewrite (dropbox_collect_not_text df col Hcol Hin); [done|].
  unfold Dropbox.is_text_column.
  destruct (Dropbox.rows df) as [|row rows] eqn:Er; [done|].
  assert (omap (fun row => mjoin (row !! col)) (row :: rows) = []) as ->; [|done].
  clear Er Hrows. induction (row :: rows) as [|r l IH]; [done|].
  cbn [omap list_omap]. rewrite Hempty by left. apply IH.
  intros r' Hr'. apply Hempty. by right.
Qed.

Lemma dropbox_needs_text_columns_witness :
  @Dropbox.process_csv no_bracketed_host digit_strings "import.csv" demo_env plain_world
  = (Raise AttributeError, plain_world).
Proof.
  apply (@dropbox_needs_text_columns no_bracketed_host digit_strings
           demo_env plain_world "import.csv" "Variant Image"
           {| Dropbox.columns := ["Handle"; "Image Src"; "Variant Image"];
              Dropbox.rows :=
                [Dropbox.read_line ["Handle"; "Image Src"; "Variant Image"]
                   ["shirt"; "https://www.dropbox.com/s/abc/photo.jpg?dl=0"; ""];
                 Dropbox.read_line ["Handle"; "Image Src"; "Variant Image"]
                   ["mug"; "https://example.com/mug.jpg"; ""]] |}).
  - vm_compute; reflexivity.
  - set_solver.
  - set_solver.
  - discriminate.
  - intros row Hrow.
    apply elem_of_cons in Hrow as [->|Hrow];
      [|apply list_elem_of_singleton in Hrow as ->]; vm_compute; reflexivity.
Defined.
(** ** Two URLs, one name *)



(** ** The batches *)

Lemma batches_length {A} (l : list A) size :
  length (batches l size) = (length l + size - 1) / size.
Proof. unfold batches, enumerate_range. by rewrite !length_map, length_seq. Qed.

Lemma batches_lookup {A} (l : list A) size k b :
  batches l size !! k = Some b -> b = sublist l (k * size) size.
Proof.
  unfold batches, enumerate_range. rewrite !list_lookup_fmap.
  intros Hk. destruct (seq 0 _ !! k) as [k'|] eqn:E; [|done].
  apply lookup_seq in E as [-> _]. cbn in Hk. by injection Hk as <-.
Qed.

(** X13: the processing loop cuts the candidates into batches of
    [BATCH_SIZE]: the batches, one after the other, are the list of
    candidates; there are as many as the loop announces,
    [(n + BATCH_SIZE - 1) // BATCH_SIZE]; batch [k] starts at the candidate
    [k * BATCH_SIZE]; no batch is empty, none is longer than [BATCH_SIZE],
    and every batch but the last is full. *)
Theorem batches_partition {A} (l : list A) (size : nat) :
  0 < size ->
  concat (batches l size) = l
  /\ length (batches l size) = (length l + size - 1) / size
  /\ forall k b,
       batches l size !! k = Some b ->
       b = sublist l (k * size) size
       /\ 0 < length b <= size
       /\ (S k < length (batches l size) -> length b = size).
Proof.
  intros Hsize. split; [by apply batches_cover|].
  split; [apply batches_length|].
  intros k b Hb.
  pose proof (lookup_lt_Some _ _ _ Hb) as Hk. rewrite batches_length in *.
  apply batches_lookup in Hb as ->. split; [done|].
  unfold sublist. rewrite length_take, length_drop.
  pose proof (Nat.div_mod_eq (length l + size - 1) size) as Hdm.
  pose proof (Nat.mod_upper_bound (length l + size - 1) size ltac:(lia)) as Hlt.
  split; [nia|]. intros Hnext. nia.
Qed.

Lemma batches_partition_witness :
  length (batches (seq 0 25) Simple.BATCH_SIZE) = 3
  /\ batches (seq 0 25) Simple.BATCH_SIZE !! 2 = Some [20; 21; 22; 23; 24].
Proof.
  destruct (batches_partition (seq 0 25) Simple.BATCH_SIZE) as (_ & Hlen & _).
  - unfold Simple.BATCH_SIZE. lia.
  - split; [exact Hlen | reflexivity].
Defined.

(** ** The pauses *)

Lemma sleeps_app t1 t2 : sleeps (t1 ++ t2) = sleeps t1 ++ sleeps t2.
Proof. apply omap_app. Qed.

Lemma pauses_ret {A} (a : A) : pauses (ret a) [].
Proof. intros env w. exists a, w. by rewrite app_nil_r. Qed.

Lemma pauses_bind {A B} (m : M A) (k : A -> M B) us vs :
  pauses m us -> (forall a, pauses (k a) vs) -> pauses (bind m k) (us ++ vs).
Proof.
  intros Hm Hk env w. destruct (Hm env w) as (a & w1 & Em & Hu).
  destruct (Hk a env w1) as (b & w2 & Ek & Hu').
  exists b, w2. unfold bind. rewrite Em, Ek.
  split; [done|]. by rewrite Hu', Hu, app_assoc.
Qed.

Lemma pauses_then {A B} (m : M A) (k : A -> M B) us :
  pauses m [] -> (forall a, pauses (k a) us) -> pauses (bind m k) us.
Proof. intros Hm Hk. by apply (pauses_bind m k [] us). Qed.

Lemma pauses_first {A B} (m : M A) (k : A -> M B) us :
  pauses m us -> (forall a, pauses (k a) []) -> pauses (bind m k) us.
Proof. intros Hm Hk. rewrite <- (app_nil_r us). by apply pauses_bind. Qed.

Lemma pauses_foldM {A S} (body : S -> A -> M S) (f : A -> list Z) l s :
  (forall s x, pauses (body s x) (f x)) ->
  pauses (foldM body l s) (concat (map f l)).
Proof.
  intros Hbody. revert s. induction l as [|x l IH]; intros s; cbn [foldM map concat].
  - apply pauses_ret.
  - apply pauses_bind; [apply Hbody | intros a; apply IH].
Qed.

Lemma pauses_try_except {A} (body : M A) handler us :
  pauses body us -> pauses (try_except body handler) us.
Proof.
  intros Hb env w. destruct (Hb env w) as (a & w' & E & ?).
  exists a, w'. unfold try_except. by rewrite E.
Qed.

Lemma concat_nil_map {A B} (l : list A) : concat (map (fun _ => @nil B) l) = [].
Proof. induction l as [|x l IH]; [done|]. by cbn. Qed.

Lemma pauses_after_all_but_last {A} (x : A) m n :
  concat (map (fun k => if k <? m then [x] else []) (seq 0 n)) = repeat x (m `min` n).
Proof.
  induction n as [|n IH]; [by rewrite Nat.min_0_r|].
  rewrite seq_S, map_app, concat_app, IH. cbn [map concat Nat.add].
  rewrite app_nil_r. destruct (Nat.ltb_spec n m).
  - replace (m `min` n) with n by lia. replace (m `min` S n) with (S n) by lia.
    by rewrite <- repeat_cons.
  - replace (m `min` S n) with (m `min` n) by lia. by rewrite app_nil_r.
Qed.

Section Pauses.
Context `{HostCheck} `{RequestPath}.

Lemma simple_upload_pauses url : pauses (Simple.upload_to_github url) [].
Proof.
  intros env w.
  destruct (Simple.upload_to_github url env w) as [r w'] eqn:E.
  apply simple_upload_cases in E as [(-> & _ & _ & [Ht|Ht])|(f & c & _ & _ & _ & -> & Ht)];
    eexists _, w'; (split; [reflexivity|]);
    rewrite Ht, sleeps_app; try destruct c; cbn; by rewrite !app_nil_r.
Qed.

Lemma dropbox_upload_pauses url k : pauses (Dropbox.upload_to_github url k) [].
Proof.
  intros env w.
  destruct (Dropbox.upload_to_github url k env w) as [r w'] eqn:E.
  apply dropbox_upload_cases in E as [(-> & _ & _ & [Ht|Ht])|(f & c & _ & _ & _ & -> & Ht)];
    eexists _, w'; (split; [reflexivity|]);
    rewrite Ht, sleeps_app; try destruct c; cbn; by rewrite !app_nil_r.
Qed.

Lemma pauses_sleep_or_not (b : bool) :
  pauses (if b then sleep 10 else ret tt) (if b then [10%Z] else []).
Proof.
  destruct b; [|apply pauses_ret]. intros env w. exists tt, (log w (Slept 10)).
  cbn. by rewrite sleeps_app.
Qed.

Lemma simple_process_batch_pauses urls m bi :
  pauses (Simple.process_batch urls m bi)
    (if bi.1 <? (length urls + Simple.BATCH_SIZE - 1) / Simple.BATCH_SIZE - 1
     then [10%Z] else []).
Proof.
  destruct bi as [k i]. unfold Simple.process_batch. cbn [fst].
  apply pauses_then.
  - rewrite <- (concat_nil_map (sublist urls i Simple.BATCH_SIZE)).
    apply pauses_foldM. intros s url.
    apply pauses_then; [apply simple_upload_pauses|].
    intros [o [[|c g]|]]; apply pauses_ret.
  - intros m'.
    apply pauses_first; [apply pauses_sleep_or_not | intros; apply pauses_ret].
Qed.

Lemma dropbox_process_batch_pauses urls m bi :
  pauses (Dropbox.process_batch urls m bi)
    (if bi.1 <? (length urls + Dropbox.BATCH_SIZE - 1) / Dropbox.BATCH_SIZE - 1
     then [10%Z] else []).
Proof.
  destruct bi as [k i]. unfold Dropbox.process_batch. cbn [fst].
  apply pauses_then.
  - rewrite <- (concat_nil_map (sublist urls i Dropbox.BATCH_SIZE)).
    apply pauses_foldM. intros s url. apply pauses_try_except.
    apply pauses_then; [apply dropbox_upload_pauses|].
    intros [o [[|c g]|]]; apply pauses_ret.
  - intros m'.
    apply pauses_first; [apply pauses_sleep_or_not | intros; apply pauses_ret].
Qed.

End Pauses.

(** X14: the loop pauses between the batches and nowhere else: a run of
    the processing loop returns having slept for 10 seconds once for each
    batch but the last, so that a run of one batch, or of none, does not
    sleep at all.  Both scripts. *)
Theorem loop_pauses_between_batches `{HostCheck} `{RequestPath} (urls : list string) :
  pauses (foldM (Simple.process_batch urls)
                (enumerate_range (length urls) Simple.BATCH_SIZE) ∅)
         (repeat 10%Z (length (batches urls Simple.BATCH_SIZE) - 1))
  /\ pauses (foldM (Dropbox.process_batch urls)
                   (enumerate_range (length urls) Dropbox.BATCH_SIZE) ∅)
            (repeat 10%Z (length (batches urls Dropbox.BATCH_SIZE) - 1)).
Proof.
  rewrite !batches_length. split.
  - set (n := (length urls + Simple.BATCH_SIZE - 1) / Simple.BATCH_SIZE).
    replace (n - 1) with ((n - 1) `min` n) by lia.
    rewrite <- (pauses_after_all_but_last 10%Z (n - 1) n).
    unfold enumerate_range. fold n.
    rewrite <- (map_map (fun k => (k, k * Simple.BATCH_SIZE))
                        (fun bi : nat * nat => if bi.1 <? n - 1 then [10%Z] else [])).
    apply pauses_foldM. intros s bi. apply simple_process_batch_pauses.
  - set (n := (length urls + Dropbox.BATCH_SIZE - 1) / Dropbox.BATCH_SIZE).
    replace (n - 1) with ((n - 1) `min` n) by lia.
    rewrite <- (pauses_after_all_but_last 10%Z (n - 1) n).
    unfold enumerate_range. fold n.
    rewrite <- (map_map (fun k => (k, k * Dropbox.BATCH_SIZE))
                        (fun bi : nat * nat => if bi.1 <? n - 1 then [10%Z] else [])).
    apply pauses_foldM. intros s bi. apply dropbox_process_batch_pauses.
Qed.

(** ** The rewritten table *)




(** ** An input that cannot be read *)

(** X16: a missing or an empty input file ends the run with an exception.
    When the file is not there, [process_csv] raises [FileNotFoundError]
    at once, in both scripts.  When it is empty, [dropbox_to_github.py]
    raises [ValueError] at once; [simple_upload.py] finds no candidate,
    uploads nothing, creates the output file, and raises [TypeError] where
    it adds the new columns to the field names, there being none: it
    leaves an empty output file behind and writes no mapping file. *)
Theorem input_that_cannot_be_read `{HostCheck} `{RequestPath} `{NumberCheck}
    (env : Env) (w : World) (csv_file : string) :
  (fs w !! csv_file = None ->
   Simple.process_csv csv_file env w = (Raise FileNotFoundError, w)
   /\ Dropbox.process_csv csv_file env w = (Raise FileNotFoundError, w))
  /\ (forall file,
        fs w !! csv_file = Some file ->
        csv_header file = None ->
        Simple.process_csv csv_file env w
        = (Raise TypeError,
           set_fs (log w (MadeDir "images"))
             (<[output_name csv_file := {| csv_header := None; csv_rows := [] |}]> (fs w)))
        /\ Dropbox.process_csv csv_file env w = (Raise ValueError, w)).
Proof.
  split.
  - intros Hnone.
    unfold Simple.process_csv, Dropbox.process_csv, Dropbox.read_csv, bind, open_csv.
    by rewrite Hnone.
  - intros file Hfile Hempty. split.
    + unfold Simple.process_csv.
      rewrite (bind_run _ _ _ _ _ _ (open_csv_run _ _ env _ Hfile)).
      unfold Simple.DictReader. rewrite Hempty.
      unfold Simple.collect. cbn [fold_left]. rewrite elements_empty.
      cbn [length]. unfold enumerate_range.
      change ((0 + Simple.BATCH_SIZE - 1) / Simple.BATCH_SIZE) with 0.
      cbn [seq map foldM].
      unfold bind, emit, ret, open_csv, open_w, raise. cbn [fs log]. by rewrite Hfile, Hempty.
    + unfold Dropbox.process_csv, Dropbox.read_csv, bind, open_csv, raise.
      by rewrite Hfile, Hempty.
Qed.

Lemma input_that_cannot_be_read_witness :
  @Simple.process_csv no_bracketed_host decoding_api "missing.csv" demo_env demo_world
  = (Raise FileNotFoundError, demo_world)
  /\ @Dropbox.process_csv no_bracketed_host digit_strings "missing.csv" demo_env demo_world
     = (Raise FileNotFoundError, demo_world).
Proof.
  destruct (@input_that_cannot_be_read no_bracketed_host decoding_api digit_strings
              demo_env demo_world "missing.csv") as [Hmissing _].
  apply Hmissing. vm_compute; reflexivity.
Defined.

(** ** Publishing to [gh-pages] *)

Lemma writes_only_to_ret {A} branch (a : A) : writes_only_to branch (ret a).
Proof. by intros env w r w' [= <- <-]. Qed.

Lemma writes_only_to_raise {A} branch e : writes_only_to branch (@raise A e).
Proof. by intros env w r w' [= <- <-]. Qed.

Lemma writes_only_to_bind {A B} branch (m : M A) (k : A -> M B) :
  writes_only_to branch m -> (forall a, writes_only_to branch (k a)) ->
  writes_only_to branch (bind m k).
Proof.
  intros Hm Hk env w r w'. unfold bind.
  destruct (m env w) as [[a|e] w1] eqn:Em.
  - intros Ek. destruct (Hm _ _ _ _ Em) as [Hb Hf].
    destruct (Hk _ _ _ _ _ Ek) as [Hb' Hf'].
    split; [congruence|]. intros b p Hne. by rewrite Hf', Hf.
  - intros [= <- <-]. by apply (Hm _ _ _ _ Em).
Qed.

Lemma writes_only_to_try_except {A} branch (body : M A) handler :
  writes_only_to branch body -> (forall e, writes_only_to branch (handler e)) ->
  writes_only_to branch (try_except body handler).
Proof.
  intros Hb Hh env w r w'. unfold try_except.
  destruct (body env w) as [[a|e] w1] eqn:Eb.
  - intros [= <- <-]. by apply (Hb _ _ _ _ Eb).
  - destruct (Hb _ _ _ _ Eb) as [Hbr Hf]. destruct (is_exception e).
    + intros Eh. destruct (Hh _ _ _ _ _ Eh) as [Hbr' Hf'].
      split; [congruence|]. intros b p Hne. by rewrite Hf', Hf.
    + by intros [= <- <-].
Qed.

Lemma writes_only_to_foldM {A S} branch (body : S -> A -> M S) l s :
  (forall s x, writes_only_to branch (body s x)) -> writes_only_to branch (foldM body l s).
Proof.
  intros Hbody. revert s. induction l as [|x l IH]; intros s; cbn [foldM].
  - apply writes_only_to_ret.
  - apply writes_only_to_bind; [apply Hbody | intros; apply IH].
Qed.

Lemma writes_only_to_contents_get branch path ref :
  writes_only_to branch (contents_get path ref).
Proof.
  intros env w r w'. unfold contents_get.
  repeat case_match; by intros [= <- <-].
Qed.

Lemma writes_only_to_contents_put branch path message content sha :
  writes_only_to branch (contents_put path message content branch sha).
Proof.
  intros env w r w'. unfold contents_put.
  destruct (api_refuses env (Contents path)); [by intros [= <- <-]|].
  destruct (github.put (repo w) branch path content sha) as [st r'] eqn:Hput.
  assert (Hr : github.branches r' = github.branches (repo w)
               /\ forall b p, b <> branch ->
                    github.files r' !! (b, p) = github.files (repo w) !! (b, p)).
  { apply put_cases in Hput
      as [(_ & _ & _ & _ & ->)|[(_ & _ & blob & _ & _ & ->)|(_ & _ & ->)]];
      (split; [done|]); intros b p Hne; cbn; try done;
      rewrite lookup_insert_ne; congruence. }
  intros [= <- <-]. by repeat case_match.
Qed.

Lemma writes_only_to_get_contents branch path ref :
  writes_only_to branch (Dropbox.get_contents path ref).
Proof.
  unfold Dropbox.get_contents.
  apply writes_only_to_bind; [apply writes_only_to_contents_get|].
  intros [st [c|]]; [apply writes_only_to_ret | apply writes_only_to_raise].
Qed.

Lemma writes_only_to_blob_of branch c : writes_only_to branch (Dropbox.blob_of c).
Proof. destruct c; [apply writes_only_to_ret | apply writes_only_to_raise]. Qed.

Lemma writes_only_to_entries_of branch c : writes_only_to branch (Dropbox.entries_of c).
Proof. destruct c; [apply writes_only_to_raise | apply writes_only_to_ret]. Qed.

Lemma writes_only_to_update_file branch path message content sha :
  writes_only_to branch (Dropbox.update_file path message content sha branch).
Proof.
  unfold Dropbox.update_file.
  apply writes_only_to_bind; [apply writes_only_to_contents_put|].
  intros st. case_match; [apply writes_only_to_ret | apply writes_only_to_raise].
Qed.

Lemma writes_only_to_create_file branch path message content :
  writes_only_to branch (Dropbox.create_file path message content branch).
Proof.
  unfold Dropbox.create_file.
  apply writes_only_to_bind; [apply writes_only_to_contents_put|].
  intros st. case_match; [apply writes_only_to_ret | apply writes_only_to_raise].
Qed.

Lemma writes_only_to_default_branch branch : writes_only_to branch Dropbox.default_branch.
Proof. by intros env w r w' [= <- <-]. Qed.

Create HintDb pages discriminated.
#[local] Hint Resolve writes_only_to_ret writes_only_to_raise
  writes_only_to_get_contents writes_only_to_blob_of writes_only_to_entries_of
  writes_only_to_update_file writes_only_to_create_file
  writes_only_to_default_branch : pages.

Ltac pages :=
  repeat first
    [ solve [auto with pages]
    | apply writes_only_to_try_except; [|intros ?]
    | apply writes_only_to_foldM; intros ? ?
    | apply writes_only_to_bind; [|intros ?]
    | case_match ].

(** X17: the publishing step at the end of [dropbox_to_github.py] never
    raises, and it writes to the branch [gh-pages] only: it creates no
    branch, every file of every other branch is as before, it fetches and
    uploads nothing, and it leaves the local files alone. *)
Theorem publish_pages_stays_on_gh_pages (env : Env) (w : World) :
  exists w',
    Dropbox.publish_pages env w = (Ret tt, w')
    /\ github.branches (repo w') = github.branches (repo w)
    /\ (forall b p,
          b <> "gh-pages" ->
          github.files (repo w') !! (b, p) = github.files (repo w) !! (b, p))
    /\ uploads (trace w') = uploads (trace w)
    /\ fetches (trace w') = fetches (trace w)
    /\ fs w' = fs w.
Proof.
  destruct (publish_pages_returns env w) as (w' & Hrun & Hu & Hf & Hfs).
  exists w'. split; [done|].
  assert (Hpages : writes_only_to "gh-pages" Dropbox.publish_pages).
  { unfold Dropbox.publish_pages. pages. }
  destruct (Hpages _ _ _ _ Hrun) as [Hb Hfiles]. auto.
Qed.

(** ** Start-up of [dropbox_to_github.py] *)

Lemma bind_ret_inv {A B} (m : M A) (k : A -> M B) env w b w' :
  bind m k env w = (Ret b, w') ->
  exists a w1, m env w = (Ret a, w1) /\ k a env w1 = (Ret b, w').
Proof.
  unfold bind. destruct (m env w) as [[a|e] w1]; [|done]. eauto.
Qed.

Lemma try_except_ret_inv {A} (body : M A) handler env w a w' :
  try_except body handler env w = (Ret a, w') ->
  body env w = (Ret a, w')
  \/ exists e w1, body env w = (Raise e, w1) /\ handler e env w1 = (Ret a, w').
Proof.
  unfold try_except. destruct (body env w) as [[a'|e] w1]; [by left|].
  destruct (is_exception e); [|done]. right. eauto.
Qed.

Lemma get_contents_inv path ref env w c w' :
  Dropbox.get_contents path ref env w = (Ret c, w') ->
  w' = w /\ github.get (repo w) ref path = Some c.
Proof.
  unfold Dropbox.get_contents, contents_get, bind, ret, raise.
  change (default (github.default_branch (repo w)) (Some ref)) with ref.
  intros Hrun. repeat case_match; by simplify_eq.
Qed.

Lemma create_file_inv path message content branch env w w' :
  Dropbox.create_file path message content branch env w = (Ret tt, w') ->
  stored (repo w) (repo w') branch path content true /\ fs w' = fs w.
Proof.
  unfold Dropbox.create_file, contents_put, bind, ret, raise.
  destruct (api_refuses env (Contents path)); [done|].
  destruct (github.put (repo w) branch path content None) as [st r'] eqn:Hput.
  destruct (Z.eqb_spec st 201) as [->|]; [|done].
  intros [= <-]. cbn.
  apply put_cases in Hput as [(_ & Hw & Hnone & _ & ->)|[(? & _)|(_ & ? & _)]]; done.
Qed.

Lemma get_branch_inv name env w w' :
  Dropbox.get_branch name env w = (Ret tt, w') ->
  w' = w /\ name ∈ github.branches (repo w).
Proof.
  unfold Dropbox.get_branch. intros Hrun.
  repeat case_match; simplify_eq. by case_bool_decide.
Qed.

Lemma create_git_ref_inv name from env w w' :
  Dropbox.create_git_ref name from env w = (Ret tt, w') ->
  (name ∉ github.branches (repo w))
  /\ repo w' = github.create_branch (repo w) name from
  /\ fs w' = fs w.
Proof.
  unfold Dropbox.create_git_ref. intros Hrun.
  repeat case_match; simplify_eq. by case_bool_decide.
Qed.

(** There is something at [p]: a file, or a directory with an entry. *)
Lemma get_is_Some r b p :
  is_Some (github.get r b p)
  <-> exists q blob,
        github.files r !! (b, q) = Some blob
        /\ (q = p \/ Str.startswith (p +:+ "/") q = true).
Proof.
  unfold github.get. split.
  - destruct (github.files r !! (b, p)) as [blob|] eqn:Hp; [by eauto|].
    destruct (github.listing r b p) as [|q l] eqn:Hl; [by intros [? ?]|]. intros _.
    assert (Hin : q ∈ github.listing r b p) by (rewrite Hl; left).
    unfold github.listing in Hin.
    apply list_elem_of_omap in Hin as ([[b' q'] blob] & Hin & Hf).
    apply elem_of_map_to_list in Hin.
    destruct (bool_decide (b' = b)) eqn:Hb; [|done].
    apply bool_decide_eq_true in Hb as ->.
    destruct (Str.startswith (p +:+ "/") q') eqn:Hs; [|done].
    exists q', blob. auto.
  - intros (q & blob & Hq & [->|Hs]); [by rewrite Hq|].
    destruct (github.files r !! (b, p)); [done|].
    destruct (github.listing r b p) eqn:Hl; [|done].
    rewrite listing_nil in Hl. by rewrite (Hl _ _ Hq) in Hs.
Qed.

Lemma create_branch_other r new from b q :
  b <> new ->
  github.files (github.create_branch r new from) !! (b, q) = github.files r !! (b, q).
Proof.
  intros Hne. cbn. rewrite lookup_union_r; [done|].
  apply not_elem_of_list_to_map_1.
  intros ([k blob] & Hk & Hin)%list_elem_of_fmap. cbn in Hk. subst k.
  apply list_elem_of_omap in Hin as ([[b' q'] blob'] & _ & Hf).
  case_bool_decide; by simplify_eq.
Qed.

(** X18: what the start-up statements of [dropbox_to_github.py] leave when
    they complete: the branch [gh-pages] exists, and there is something at
    [images] on the default branch (the directory, which they create with
    the file [images/.gitkeep] when nothing is there).  They fetch and
    upload nothing and leave the local files alone. *)
Theorem start_up_prepares_the_repository (env : Env) (w w' : World) :
  Dropbox.module_init env w = (Ret tt, w') ->
  "gh-pages" ∈ github.branches (repo w')
  /\ github.default_branch (repo w') = github.default_branch (repo w)
  /\ is_Some (github.get (repo w') (github.default_branch (repo w)) "images")
  /\ uploads (trace w') = uploads (trace w)
  /\ fetches (trace w') = fetches (trace w)
  /\ fs w' = fs w.
Proof.
  intros Hrun.
  destruct (api_only_module_init _ _ _ _ Hrun) as (_ & Hu & Hf & Hfs).
  cut ("gh-pages" ∈ github.branches (repo w')
       /\ github.default_branch (repo w') = github.default_branch (repo w)
       /\ is_Some (github.get (repo w') (github.default_branch (repo w)) "images"));
    [tauto|]. clear Hu Hf Hfs.
  unfold Dropbox.module_init in Hrun.
  apply bind_ret_inv in Hrun as ([] & w1 & Hrepo & Hrun).
  assert (w1 = w) as ->.
  { revert Hrepo. unfold Dropbox.get_repo. by case_match; intros [= <-]. }
  apply bind_ret_inv in Hrun as (branch & w1 & Hbranch & Hrun).
  injection Hbranch as <- <-.
  set (branch := github.default_branch (repo w)) in *.
  apply bind_ret_inv in Hrun as ([] & w1 & Hdir & Hrun).
  assert (Hw1 : github.default_branch (repo w1) = branch
                /\ github.branches (repo w1) = github.branches (repo w)
                /\ is_Some (github.get (repo w1) branch "images")).
  { apply try_except_ret_inv in Hdir as [Hdir|(e & w0 & Hdir & Hcreate)].
    - apply bind_ret_inv in Hdir as (c & w0 & Hget & [= <-]).
      apply get_contents_inv in Hget as [-> Hget]. by rewrite Hget.
    - assert (w0 = w) as ->.
      { revert Hdir. unfold bind.
        destruct (Dropbox.get_contents "images" branch env w) as [[c|e'] w2] eqn:Hget;
          [done|]. intros [= _ <-]. revert Hget.
        unfold Dropbox.get_contents, contents_get, bind, ret, raise.
        intros Hget. repeat case_match; by simplify_eq. }
      apply create_file_inv in Hcreate as [Hst _].
      destruct (stored_identity _ _ _ _ _ _ Hst) as (_ & _ & Hb).
      destruct (stored_lookup _ _ _ _ _ _ Hst) as (blob & Hblob & _).
      split; [done|]. split.
      + destruct Hst as [_ [_ ->]]. done.
      + apply get_is_Some. exists "images/.gitkeep", blob. split; [done|]. by right. }
  destruct Hw1 as (Hb1 & Hbr1 & Himages).
  apply try_except_ret_inv in Hrun as [Hpages|(e & w2 & Hpages & Hcreate)].
  - apply get_branch_inv in Hpages as [-> Hin]. done.
  - assert (w2 = w1) as ->.
    { revert Hpages. unfold Dropbox.get_branch. intros Hp.
      repeat case_match; by simplify_eq. }
    apply bind_ret_inv in Hcreate as ([] & w2 & Hdefault & Hcreate).
    apply get_branch_inv in Hdefault as [-> Hin].
    apply create_git_ref_inv in Hcreate as (Hnot & -> & _).
    split; [cbn; set_solver|]. split; [done|].
    apply get_is_Some. apply get_is_Some in Himages as (q & blob & Hq & Hor).
    exists q, blob. split; [|done].
    rewrite create_branch_other; [done|]. intros ->. done.
Qed.

Lemma start_up_prepares_the_repository_witness :
  "gh-pages" ∈ github.branches (repo (snd (Dropbox.module_init demo_env demo_world))).
Proof.
  apply (start_up_prepares_the_repository demo_env demo_world
           (snd (Dropbox.module_init demo_env demo_world))).
  vm_compute; reflexivity.
Defined.

(** ** The escaped name *)

Section QuoteFacts.
Local Arguments Ascii.eqb : simpl never.

Lemma all_app (P : ascii -> bool) s t :
  Str.all P (s +:+ t) = Str.all P s && Str.all P t.
Proof.
  induction s as [|c s IH]; [done|]. rewrite app_cons. cbn [Str.all].
  by rewrite IH, andb_assoc.
Qed.

Lemma hex_upper_safe n : (0 <= n < 16)%Z -> urllib.always_safe (urllib.hex_upper n) = true.
Proof.
  intros Hn. assert (Hc : n ∈ (Z.of_nat <$> seq 0 16)).
  { apply list_elem_of_fmap. exists (Z.to_nat n). split; [lia|]. apply elem_of_seq. lia. }
  cbn in Hc. repeat (apply elem_of_cons in Hc as [->|Hc]; [reflexivity|]).
  by apply elem_of_nil in Hc.
Qed.

Lemma quote_byte_chars b :
  (0 <= b < 256)%Z -> Str.all quoted_char (urllib.quote_byte b) = true.
Proof.
  intros Hb. unfold urllib.quote_byte.
  destruct ((b <? 128)%Z
            && (urllib.always_safe (Str.chr b) || Ascii.eqb (Str.chr b) "/")) eqn:E.
  - apply andb_true_iff in E as [_ E]. cbn [Str.all]. unfold quoted_char.
    by rewrite E.
  - cbn [Str.all]. unfold quoted_char at 1.
    rewrite (orb_true_r _ : _ || Ascii.eqb "%" "%" = true). cbn [andb].
    unfold quoted_char.
    rewrite !hex_upper_safe; [done| |].
    + apply Z.mod_pos_bound. lia.
    + split; [apply Z.div_pos; lia | apply Z.div_lt_upper_bound; lia].
Qed.

Lemma encode_range s b : b ∈ Str.encode s -> (0 <= b < 256)%Z.
Proof.
  induction s as [|c s IH]; cbn [Str.encode]; [by intros ?%elem_of_nil|].
  pose proof (nat_ascii_bounded c) as Hc. unfold Str.code.
  rewrite elem_of_app. intros [Hb|Hb]; [|by apply IH].
  destruct (Z.ltb_spec (Z.of_nat (nat_of_ascii c)) 128).
  - apply list_elem_of_singleton in Hb as ->. lia.
  - apply elem_of_cons in Hb as [->|Hb];
      [|apply list_elem_of_singleton in Hb as ->].
    + assert (Z.of_nat (nat_of_ascii c) / 64 < 4)%Z
        by (apply Z.div_lt_upper_bound; lia).
      assert (0 <= Z.of_nat (nat_of_ascii c) / 64)%Z by (apply Z.div_pos; lia). lia.
    + pose proof (Z.mod_pos_bound (Z.of_nat (nat_of_ascii c)) 64 ltac:(lia)). lia.
Qed.

Lemma quote_chars s : Str.all quoted_char (urllib.quote s) = true.
Proof.
  unfold urllib.quote. pose proof (encode_range s) as Hr.
  induction (Str.encode s) as [|b bs IH]; [done|].
  cbn [fold_right]. rewrite all_app, quote_byte_chars, IH; [done| |].
  - intros b' Hb'. apply Hr. by right.
  - apply Hr. by left.
Qed.

End QuoteFacts.

(** X19: the name that [dropbox_to_github.py] puts in the public URL is
    escaped throughout: [quote(filename)] holds letters, digits, [_], [.],
    [-], [~] and [/] only, besides the escapes [%XX] it writes; in
    particular it holds no space, no [?] and no [#], whatever the name. *)
Theorem quoted_name_is_escaped (filename : string) :
  Str.all quoted_char (urllib.quote filename) = true
  /\ Str.has_char " " (urllib.quote filename) = false
  /\ Str.has_char "?" (urllib.quote filename) = false
  /\ Str.has_char "#" (urllib.quote filename) = false.
Proof.
  pose proof (quote_chars filename) as Hq.
  split; [done|]. repeat split; by apply (all_has_char quoted_char).
Qed.
